(** * The message pipeline of the AI text processor

    A shallow embedding of the two page components of the repository:

    - [ChatTranslator] (src/app/page.js): submit with language detection,
      per-message translate into a map of translations, clear, delete;
    - [Home] (src/unnamed/part_000): send with language detection, summarize
      and translate, with page-level [loading] and [error]. The second
      document kept in src/app/page.js is this component without the
      summarize handler.

    The handlers are [async] functions. They are embedded as terms of a small
    free monad [Proc]: state updates ([setMessages] and the like), outputs
    ([alert], [console.error]) and awaited service calls, whose continuation
    receives either the value the promise is fulfilled with or the value it is
    rejected with. A handler parked at an [Await] is an operation in flight. *)

From Stdlib Require Import String Ascii List ZArith QArith Bool Lia.
From stdpp Require Import base option list gmap strings.
Import ListNotations.
Local Open Scope string_scope.
Local Open Scope Z_scope.
Local Open Scope nat_scope.
Local Open Scope list_scope.

(** ** JavaScript values used by the handlers *)

Module Js.

(** Strings are modelled by [string]; one [ascii] stands for one UTF-16 code
    unit in the Latin-1 range, so [String.length] is [.length]. *)

(** The white space that [String.prototype.trim] strips, in that range:
    TAB, LF, VT, FF, CR, SPACE and NBSP. *)
Definition isWhiteSpace (c : ascii) : bool :=
  let n := nat_of_ascii c in
  ((9 <=? n) && (n <=? 13)) || (n =? 32) || (n =? 160).

Fixpoint trimStart (s : string) : string :=
  match s with
  | EmptyString => EmptyString
  | String c s' => if isWhiteSpace c then trimStart s' else s
  end.

Fixpoint trimEnd (s : string) : string :=
  match s with
  | EmptyString => EmptyString
  | String c s' =>
      match trimEnd s' with
      | EmptyString => if isWhiteSpace c then EmptyString else String c EmptyString
      | t => String c t
      end
  end.

Definition trim (s : string) : string := trimEnd (trimStart s).

(** A string is falsy exactly when it is empty. *)
Definition truthy (s : string) : bool :=
  match s with EmptyString => false | String _ _ => true end.

(** [a || b] on strings. *)
Definition or_else (a b : string) : string := if truthy a then a else b.

(** A thrown value. Only its [message] is ever read ([err?.message]); a
    missing message is the empty string, which is falsy as well. *)
Record Thrown := { message : string }.

Definition TypeError (msg : string) : Thrown := {| message := msg |}.

(** Reading a property of [undefined]. *)
Definition undefined_property : Thrown :=
  TypeError "Cannot read properties of undefined".

(** How a promise settles. *)
Inductive Result (A : Type) : Type :=
| Fulfilled (value : A)
| Rejected (reason : Thrown).
Arguments Fulfilled {A} value.
Arguments Rejected {A} reason.

End Js.
Import Js.

(** ** Asynchronous handlers *)

Module Async.

(** What the user sees or the console receives. *)
Inductive Output : Type :=
| Alert (msg : string)
| ConsoleError (label : string) (err : Thrown).

Section Proc.
Context {St Call : Type} {reply : Call -> Type}.

Inductive Proc (A : Type) : Type :=
| Ret (a : A)
| Throw (err : Thrown)
| SetState (f : St -> St) (k : Proc A)
| GetState (k : St -> Proc A)
| Emit (o : Output) (k : Proc A)
| Await (c : Call) (k : Result (reply c) -> Proc A).
Arguments Ret {A} a.
Arguments Throw {A} err.
Arguments SetState {A} f k.
Arguments GetState {A} k.
Arguments Emit {A} o k.
Arguments Await {A} c k.

Fixpoint bind {A B : Type} (p : Proc A) (f : A -> Proc B) : Proc B :=
  match p with
  | Ret a => f a
  | Throw err => Throw err
  | SetState g k => SetState g (bind k f)
  | GetState k => GetState (fun s => bind (k s) f)
  | Emit o k => Emit o (bind k f)
  | Await c k => Await c (fun r => bind (k r) f)
  end.

(** [try { p } catch (err) { h err }] *)
Fixpoint tryCatch {A : Type} (p : Proc A) (h : Thrown -> Proc A) : Proc A :=
  match p with
  | Ret a => Ret a
  | Throw err => h err
  | SetState g k => SetState g (tryCatch k h)
  | GetState k => GetState (fun s => tryCatch (k s) h)
  | Emit o k => Emit o (tryCatch k h)
  | Await c k => Await c (fun r => tryCatch (k r) h)
  end.

(** [try { p } finally { fin }]: [fin] runs on return and on throw. *)
Fixpoint tryFinally {A : Type} (p : Proc A) (fin : Proc unit) : Proc A :=
  match p with
  | Ret a => bind fin (fun _ => Ret a)
  | Throw err => bind fin (fun _ => Throw err)
  | SetState g k => SetState g (tryFinally k fin)
  | GetState k => GetState (fun s => tryFinally (k s) fin)
  | Emit o k => Emit o (tryFinally k fin)
  | Await c k => Await c (fun r => tryFinally (k r) fin)
  end.

Definition setState (f : St -> St) : Proc unit := SetState f (Ret tt).
Definition getState : Proc St := GetState (fun s => Ret s).
Definition emit (o : Output) : Proc unit := Emit o (Ret tt).

(** [await c]: a rejection is thrown at the [await]. *)
Definition await (c : Call) : Proc (reply c) :=
  Await c (fun r => match r with
                    | Fulfilled v => Ret v
                    | Rejected err => Throw err
                    end).

(** Reading a property of a value that may be [undefined]. *)
Definition defined {A : Type} (o : option A) : Proc A :=
  match o with
  | Some a => Ret a
  | None => Throw undefined_property
  end.

(** The observable history: the service calls issued and the outputs. *)
Inductive Event : Type :=
| Called (c : Call)
| Shown (o : Output).

Record World : Type := { state : St; trace : list Event }.

Definition update (f : St -> St) (w : World) : World :=
  {| state := f (state w); trace := trace w |}.
Definition record (e : Event) (w : World) : World :=
  {| state := state w; trace := trace w ++ [e] |}.

(** The environment's answers to the calls. *)
Definition Oracle : Type := forall c : Call, Result (reply c).

(** Run a handler to its end, every call answered by the oracle. *)
Fixpoint run {A : Type} (o : Oracle) (p : Proc A) (w : World) : World :=
  match p with
  | Ret _ => w
  | Throw _ => w
  | SetState f k => run o k (update f w)
  | GetState k => run o (k (state w)) w
  | Emit out k => run o k (record (Shown out) w)
  | Await c k => run o (k (o c)) (record (Called c) w)
  end.

(** Run the synchronous code up to the next [await]: the call is issued
    and the handler is parked on it, in flight. *)
Fixpoint advance {A : Type} (p : Proc A) (w : World) : World * Proc A :=
  match p with
  | Ret _ => (w, p)
  | Throw _ => (w, p)
  | SetState f k => advance k (update f w)
  | GetState k => advance (k (state w)) w
  | Emit out k => advance k (record (Shown out) w)
  | Await c _ => (record (Called c) w, p)
  end.

(** The awaited promise settles: the parked handler goes on to its next
    [await], or to its end. *)
Definition resume {A : Type} (o : Oracle) (p : Proc A) (w : World)
  : World * Proc A :=
  match p with
  | Await c k => advance (k (o c)) w
  | _ => (w, p)
  end.

(** The parked handler runs to its end. *)
Definition finish {A : Type} (o : Oracle) (p : Proc A) (w : World) : World :=
  match p with
  | Await c k => run o (k (o c)) w
  | _ => w
  end.

Definition inFlight {A : Type} (p : Proc A) : bool :=
  match p with Await _ _ => true | _ => false end.

Definition calls (w : World) : list Call :=
  omap (fun e => match e with Called c => Some c | Shown _ => None end) (trace w).
Definition outputs (w : World) : list Output :=
  omap (fun e => match e with Shown o => Some o | Called _ => None end) (trace w).

(** How many of the calls issued so far satisfy [p]. *)
Definition countCalls (p : Call -> bool) (w : World) : nat :=
  length (List.filter p (calls w)).

(** [inert P p]: no state update of [p] changes a state that satisfies [P]. *)
Fixpoint inert (P : St -> Prop) {A : Type} (p : Proc A) : Prop :=
  match p with
  | Ret _ | Throw _ => True
  | SetState f k => (forall s, P s -> f s = s) /\ inert P k
  | GetState k => forall s, inert P (k s)
  | Emit _ k => inert P k
  | Await c k => forall r, inert P (k r)
  end.

End Proc.

Arguments Proc St Call reply A : clear implicits.
Arguments World St Call : clear implicits.
Arguments Event Call : clear implicits.
Arguments Oracle Call reply : clear implicits.
Arguments Ret {St Call reply A} a.
Arguments Throw {St Call reply A} err.
Arguments SetState {St Call reply A} f k.
Arguments GetState {St Call reply A} k.
Arguments Emit {St Call reply A} o k.
Arguments Await {St Call reply A} c k.

Declare Scope proc_scope.
Delimit Scope proc_scope with proc.
Notation "x ← p ; q" := (bind p (fun x => q))
  (at level 20, p at level 100, q at level 200, only parsing) : proc_scope.
Notation "p ;; q" := (bind p (fun _ => q))
  (at level 100, q at level 200, right associativity, only parsing) : proc_scope.

End Async.
Import Async.


(** ** ChatTranslator (src/app/page.js) *)

Module ChatTranslator.

(** A message object. [loading] and [error] are absent ([None]) until a
    translate adds them with a spread. Message objects are never mutated in
    place: every update builds a new object. *)
Record Message : Type := {
  id : Z;
  text : string;
  detectedLang : string;
  confidence : string;
  translations : gmap string string;
  showTranslation : bool;
  loading : option bool;
  error : option string
}.

(** The component state: the [useState] cells. *)
Record State : Type := {
  inputText : string;
  messages : list Message;
  targetLanguage : string;
  isSupported : bool
}.

Definition languages : list (string * string) :=
  [("en", "English"); ("es", "Spanish"); ("pt", "Portuguese");
   ("tr", "Turkey"); ("ru", "Russian"); ("fr", "French")].

(** One element of a detection result; [score] is its [confidence] field,
    a number between 0 and 1. *)
Record Detection : Type := { detectedLanguage : string; score : Q }.

(** The calls to [self.translation] and to the objects it creates. *)
Inductive Call : Type :=
| CreateDetector
| Detect (input : string)
| CreateTranslator (sourceLanguage targetLanguage : string)
| Translate (input : string).

Definition reply (c : Call) : Type :=
  match c with
  | CreateDetector => unit
  | Detect _ => list Detection
  | CreateTranslator _ _ => unit
  | Translate _ => string
  end.

Definition isTranslate (c : Call) : bool :=
  match c with Translate _ => true | _ => false end.
Definition isTranslationCall (c : Call) : bool :=
  match c with Translate _ | CreateTranslator _ _ => true | _ => false end.

Definition Handler : Type := Proc State Call reply unit.

(** The state with its [messages] cell replaced. *)
Definition with_messages (ms : list Message) (st : State) : State :=
  {| inputText := inputText st; messages := ms;
     targetLanguage := targetLanguage st; isSupported := isSupported st |}.

(** [setMessages(prev => f(prev))] *)
Definition setMessages (f : list Message -> list Message) : Handler :=
  setState (fun st => with_messages (f (messages st)) st).

Definition setInputText (s : string) : Handler :=
  setState (fun st => {| inputText := s; messages := messages st;
                         targetLanguage := targetLanguage st;
                         isSupported := isSupported st |}).

Definition setTargetLanguage (l : string) : Handler :=
  setState (fun st => {| inputText := inputText st; messages := messages st;
                         targetLanguage := l; isSupported := isSupported st |}).

Definition setIsSupported (b : bool) : Handler :=
  setState (fun st => {| inputText := inputText st; messages := messages st;
                         targetLanguage := targetLanguage st;
                         isSupported := b |}).

Definition alert (msg : string) : Handler := emit (Alert msg).
Definition console_error (label : string) (err : Thrown) : Handler :=
  emit (ConsoleError label err).

(** *** The object spreads of the handlers *)

(** [{ ...msg, loading: b }] *)
Definition with_loading (b : bool) (msg : Message) : Message :=
  {| id := id msg; text := text msg; detectedLang := detectedLang msg;
     confidence := confidence msg; translations := translations msg;
     showTranslation := showTranslation msg;
     loading := Some b; error := error msg |}.

(** [{ ...msg, translations: {}, showTranslation: false }] *)
Definition cleared (msg : Message) : Message :=
  {| id := id msg; text := text msg; detectedLang := detectedLang msg;
     confidence := confidence msg; translations := ∅;
     showTranslation := false;
     loading := loading msg; error := error msg |}.

(** [{ ...msg, translations: { ...msg.translations, [targetLanguage]:
    translation }, showTranslation: true, loading: false }] *)
Definition translated (targetLanguage translation : string) (msg : Message)
  : Message :=
  {| id := id msg; text := text msg; detectedLang := detectedLang msg;
     confidence := confidence msg;
     translations := <[targetLanguage := translation]> (translations msg);
     showTranslation := true;
     loading := Some false; error := error msg |}.

Definition translation_failed : string :=
  "Translation failed. Please try another language pair.".

(** [{ ...msg, loading: false, error: 'Translation failed. ...' }] *)
Definition failed (msg : Message) : Message :=
  {| id := id msg; text := text msg; detectedLang := detectedLang msg;
     confidence := confidence msg; translations := translations msg;
     showTranslation := showTranslation msg;
     loading := Some false; error := Some translation_failed |}.

(** [prev.map(msg => msg.id === messageId ? f(msg) : msg)] *)
Definition patch (messageId : Z) (f : Message -> Message)
  (prev : list Message) : list Message :=
  map (fun msg => if decide (id msg = messageId) then f msg else msg) prev.

(** [messages.find(msg => msg.id === messageId)] *)
Definition find_message (messageId : Z) (messages : list Message)
  : option Message :=
  snd <$> list_find (fun msg => id msg = messageId) messages.

(** *** handleSubmit *)

Section Submit.

(** [Intl.DisplayNames([targetLanguage], {type: 'language'}).of(languageTag)],
    which throws on a malformed tag, and [(confidence * 100).toFixed(1)]:
    both belong to the JavaScript runtime. *)
Variable languageTagToHumanReadable : string -> string -> Result string.
Variable toPercent : Q -> string.

Definition newMessage (now : Z) (inputText detectedLang confidence : string)
  : Message :=
  {| id := now; text := inputText; detectedLang := detectedLang;
     confidence := confidence; translations := ∅; showTranslation := false;
     loading := None; error := None |}.

Definition handleSubmit (inputText : string) (now : Z) : Handler :=
  (if negb (truthy (trim inputText)) then Ret tt
   else
     tryCatch
       (_ ← await CreateDetector;
        detectionResult ← await (Detect (trim inputText));
        first ← defined (head detectionResult);
        detectedLang ←
          match languageTagToHumanReadable (detectedLanguage first) "en" with
          | Fulfilled name => Ret name
          | Rejected err => Throw err
          end;
        setMessages (fun prev =>
          newMessage now inputText detectedLang (toPercent (score first)) :: prev);;
        setInputText "")
       (fun error => console_error "Detection error:" error))%proc.

End Submit.

(** *** handleDeleteMessage, handleClearTranslation *)

Definition handleDeleteMessage (messageId : Z) : Handler :=
  setMessages (fun prev => filter (fun msg => id msg ≠ messageId) prev).

Definition handleClearTranslation (messageId : Z) : Handler :=
  setMessages (patch messageId cleared).

(** *** handleTranslate

    [messages] and [targetLanguage] are the values the handler closed over
    when the component was rendered. *)

Definition same_language : string :=
  "⚠️ Source and target languages are the same!".

Definition handleTranslate (messages : list Message) (targetLanguage : string)
  (messageId : Z) : Handler :=
  (setMessages (patch messageId (with_loading true));;
   tryCatch
     (let message := find_message messageId messages in
      _ ← await CreateDetector;
      message ← defined message;
      detectionResult ← await (Detect (trim (text message)));
      first ← defined (head detectionResult);
      let sourceLang := detectedLanguage first in
      if decide (sourceLang = targetLanguage) then
        alert same_language;;
        setMessages (patch messageId (with_loading false))
      else
        _ ← await (CreateTranslator sourceLang targetLanguage);
        translation ← await (Translate (trim (text message)));
        setMessages (patch messageId (translated targetLanguage translation)))
     (fun error =>
        console_error "Translation error:" error;;
        setMessages (patch messageId failed)))%proc.

(** The message with another stored display name. *)
Definition with_detectedLang (name : string) (msg : Message) : Message :=
  {| id := id msg; text := text msg; detectedLang := name;
     confidence := confidence msg; translations := translations msg;
     showTranslation := showTranslation msg;
     loading := loading msg; error := error msg |}.

(** *** How the services can answer a translate

    [Detects]: the message is in the closed-over array, the detector is
    created and its detection has a first element, of language [sourceLang]. *)
Definition Detects (o : Oracle Call reply) (snapshot : list Message)
  (messageId : Z) (message : Message) (sourceLang : string) : Prop :=
  find_message messageId snapshot = Some message
  /\ (exists u, o CreateDetector = Fulfilled u)
  /\ exists first rest,
       o (Detect (trim (text message))) = Fulfilled (first :: rest)
       /\ detectedLanguage first = sourceLang.

(** [Translates]: the translator is created and translates the text. *)
Definition Translates (o : Oracle Call reply) (message : Message)
  (sourceLang targetLanguage translation : string) : Prop :=
  (exists u, o (CreateTranslator sourceLang targetLanguage) = Fulfilled u)
  /\ o (Translate (trim (text message))) = Fulfilled translation.

(** [TranslateFails o snapshot targetLanguage messageId err cs]: the [try]
    block throws [err] after the calls [cs]: a promise is rejected, or a
    property of [undefined] is read. *)
Inductive TranslateFails (o : Oracle Call reply) (snapshot : list Message)
  (targetLanguage : string) (messageId : Z) : Thrown -> list Call -> Prop :=
| detector_rejected err :
    o CreateDetector = Rejected err ->
    TranslateFails o snapshot targetLanguage messageId err [CreateDetector]
| message_undefined u :
    o CreateDetector = Fulfilled u ->
    find_message messageId snapshot = None ->
    TranslateFails o snapshot targetLanguage messageId undefined_property
      [CreateDetector]
| detect_rejected u message err :
    o CreateDetector = Fulfilled u ->
    find_message messageId snapshot = Some message ->
    o (Detect (trim (text message))) = Rejected err ->
    TranslateFails o snapshot targetLanguage messageId err
      [CreateDetector; Detect (trim (text message))]
| detect_empty u message :
    o CreateDetector = Fulfilled u ->
    find_message messageId snapshot = Some message ->
    o (Detect (trim (text message))) = Fulfilled [] ->
    TranslateFails o snapshot targetLanguage messageId undefined_property
      [CreateDetector; Detect (trim (text message))]
| translator_rejected message sourceLang err :
    Detects o snapshot messageId message sourceLang ->
    sourceLang ≠ targetLanguage ->
    o (CreateTranslator sourceLang targetLanguage) = Rejected err ->
    TranslateFails o snapshot targetLanguage messageId err
      [CreateDetector; Detect (trim (text message));
       CreateTranslator sourceLang targetLanguage]
| translate_rejected message sourceLang u err :
    Detects o snapshot messageId message sourceLang ->
    sourceLang ≠ targetLanguage ->
    o (CreateTranslator sourceLang targetLanguage) = Fulfilled u ->
    o (Translate (trim (text message))) = Rejected err ->
    TranslateFails o snapshot targetLanguage messageId err
      [CreateDetector; Detect (trim (text message));
       CreateTranslator sourceLang targetLanguage;
       Translate (trim (text message))].

(** *** The effect run once after mounting

    [!('translation' in self) || !('createDetector' in self.translation)] *)
Definition checkSupport (translationInSelf createDetectorInTranslation : bool)
  : Handler :=
  if negb translationInSelf || negb createDetectorInTranslation
  then setIsSupported false
  else Ret tt.

(** *** What the rendered page lets the user do *)

(** [if (!isSupported) return <p>Translation API is not supported on this
    browser.</p>]: without support the page is that notice and nothing
    else. *)
Definition notSupportedShown (st : State) : bool := negb (isSupported st).

(** [disabled={message.loading}] on the Translate button. *)
Definition translateDisabled (message : Message) : bool :=
  match loading message with Some true => true | _ => false end.

(** [{message.showTranslation && ...}] around the Clear button. *)
Definition clearShown (message : Message) : bool := showTranslation message.

(** The handlers as the rendered page binds them: each closes over the
    state of that render. *)
Definition onSubmit (lt : string -> string -> Result string) (pc : Q -> string)
  (st : State) (now : Z) : Handler :=
  handleSubmit lt pc (inputText st) now.
Definition onTranslate (st : State) (messageId : Z) : Handler :=
  handleTranslate (messages st) (targetLanguage st) messageId.

(** No message of the store has this id. *)
Definition absent (messageId : Z) (st : State) : Prop :=
  forall msg, msg ∈ messages st -> id msg ≠ messageId.

(** The promises an in-flight handler is parked on settle [n] times. *)
Definition settle (n : nat) (o : Oracle Call reply)
  (wp : World State Call * Handler) : World State Call * Handler :=
  Nat.iter n (fun wp => resume o wp.2 wp.1) wp.

(** What the last write of a translate does to a message of the id: one of
    the three object spreads that end [handleTranslate]. *)
Definition lastSpread (targetLanguage : string) (f : Message -> Message)
  : Prop :=
  f = with_loading false \/ f = failed
  \/ exists translation, f = translated targetLanguage translation.

(** [endsWithPatch targetLanguage messageId p]: on every path [p] writes the
    state exactly once, with [setMessages (patch messageId f)] for one of
    those spreads, and then returns. *)
Fixpoint endsWithPatch (targetLanguage : string) (messageId : Z)
  (p : Handler) : Prop :=
  match p with
  | Ret _ | Throw _ => False
  | SetState g k =>
      (exists f, lastSpread targetLanguage f
                 /\ forall st, g st
                               = with_messages (patch messageId f (messages st)) st)
      /\ k = Ret tt
  | GetState k => forall st, endsWithPatch targetLanguage messageId (k st)
  | Emit _ k => endsWithPatch targetLanguage messageId k
  | Await c k => forall r, endsWithPatch targetLanguage messageId (k r)
  end.

End ChatTranslator.


(** ** Home (src/unnamed/part_000) *)

Module Home.

(** A message object. [handleSummarize] and [handleTranslate] assign to the
    fields of the object itself, which the current [messages] array and
    every older array share; so objects live in a heap and arrays hold
    references. *)
Record Message : Type := {
  id : string;
  text : string;
  detectedLang : option string;
  summary : option string;
  translation : option string;
  targetLang : option string
}.

(** A reference is an index into the heap. *)
Abbreviation Ref := nat.

(** The [useState] cells of the page, and the heap of message objects. *)
Module Page.
Record State : Type := {
  heap : list Message;
  inputText : string;
  messages : list Ref;
  targetLang : string;
  loading : bool;
  error : string
}.
End Page.
Import Page (State).

Definition supportedLangs : list (string * string) :=
  [("en", "English"); ("pt", "Portuguese"); ("es", "Spanish");
   ("ru", "Russian"); ("tr", "Turkish"); ("fr", "French")].

(** The messages the page renders: [messages.map(...)]. *)
Definition rendered (st : State) : list Message :=
  omap (fun r => Page.heap st !! r) (Page.messages st).

(** The references of the page resolve in its heap. *)
Definition wellFormed (st : State) : Prop :=
  Forall (fun r => r < length (Page.heap st)) (Page.messages st).

(** One element of a detection result. *)
Record Detection : Type := { language : string }.

(** The calls to [window.ai]. *)
Inductive Call : Type :=
| DetectLanguage (input : string)
| Summarize (input : string)
| Translate (input : string) (targetLang : string) (sourceLang : option string).

Definition reply (c : Call) : Type :=
  match c with
  | DetectLanguage _ => list Detection
  | Summarize _ => string
  | Translate _ _ _ => string
  end.

Definition Handler : Type := Proc State Call reply unit.

Definition setInputText (s : string) : Handler :=
  setState (fun st =>
    {| Page.heap := Page.heap st; Page.inputText := s;
       Page.messages := Page.messages st; Page.targetLang := Page.targetLang st;
       Page.loading := Page.loading st; Page.error := Page.error st |}).

(** [setMessages(array)] *)
Definition setMessages (array : list Ref) : Handler :=
  setState (fun st =>
    {| Page.heap := Page.heap st; Page.inputText := Page.inputText st;
       Page.messages := array; Page.targetLang := Page.targetLang st;
       Page.loading := Page.loading st; Page.error := Page.error st |}).

(** [setMessages((prev) => [...prev, newMessage])], for a fresh object. *)
Definition appendMessage (newMessage : Message) : Handler :=
  setState (fun st =>
    {| Page.heap := Page.heap st ++ [newMessage];
       Page.inputText := Page.inputText st;
       Page.messages := Page.messages st ++ [length (Page.heap st)];
       Page.targetLang := Page.targetLang st;
       Page.loading := Page.loading st; Page.error := Page.error st |}).

Definition setTargetLang (l : string) : Handler :=
  setState (fun st =>
    {| Page.heap := Page.heap st; Page.inputText := Page.inputText st;
       Page.messages := Page.messages st; Page.targetLang := l;
       Page.loading := Page.loading st; Page.error := Page.error st |}).

Definition setLoading (b : bool) : Handler :=
  setState (fun st =>
    {| Page.heap := Page.heap st; Page.inputText := Page.inputText st;
       Page.messages := Page.messages st; Page.targetLang := Page.targetLang st;
       Page.loading := b; Page.error := Page.error st |}).

Definition setError (e : string) : Handler :=
  setState (fun st =>
    {| Page.heap := Page.heap st; Page.inputText := Page.inputText st;
       Page.messages := Page.messages st; Page.targetLang := Page.targetLang st;
       Page.loading := Page.loading st; Page.error := e |}).

(** An assignment to a field of the object behind a reference. *)
Definition assign (r : Ref) (f : Message -> Message) : Handler :=
  setState (fun st =>
    {| Page.heap := alter f r (Page.heap st);
       Page.inputText := Page.inputText st;
       Page.messages := Page.messages st; Page.targetLang := Page.targetLang st;
       Page.loading := Page.loading st; Page.error := Page.error st |}).

Definition console_error (label : string) (err : Thrown) : Handler :=
  emit (ConsoleError label err).

(** [m.summary = s] *)
Definition set_summary (s : string) (m : Message) : Message :=
  {| id := id m; text := text m; detectedLang := detectedLang m;
     summary := Some s; translation := translation m;
     targetLang := targetLang m |}.

(** [m.translation = t; m.targetLang = l] *)
Definition set_translation (t l : string) (m : Message) : Message :=
  {| id := id m; text := text m; detectedLang := detectedLang m;
     summary := summary m; translation := Some t; targetLang := Some l |}.

(** [messages.findIndex((m) => m.id === messageId)], with the reference found
    there; [None] is the index -1. *)
Definition findIndex (heap : list Message) (messageId : string)
  (messages : list Ref) : option (nat * Ref) :=
  list_find (fun r => id <$> heap !! r = Some messageId) messages.

(** *** handleSend

    [languageDetection] tells whether [window.ai.languageDetection] exists.
    The scroll timer after the insertion belongs to the layout and is left
    out. *)
Definition handleSend (inputText : string) (now : string)
  (languageDetection : bool) : Handler :=
  (if negb (truthy (trim inputText)) then setError "Please enter some text"
   else
     tryFinally
       (tryCatch
          (setLoading true;;
           setError "";;
           if negb languageDetection then
             setError "Language detection service is unavailable.";;
             setLoading false
           else
             detectedLang ← await (DetectLanguage inputText);
             appendMessage
               {| id := now; text := inputText;
                  detectedLang := language <$> head detectedLang;
                  summary := None; translation := None; targetLang := None |};;
             setInputText "")
          (fun err =>
             setError (or_else (message err) "Failed to detect language");;
             console_error "Detection error:" err))
       (setLoading false))%proc.

(** *** handleSummarize

    [messages] is the array the handler closed over at render time. *)
Definition handleSummarize (messages : list Ref) (messageId : string)
  : Handler :=
  (tryFinally
     (tryCatch
        (setLoading true;;
         setError "";;
         st ← getState;
         let messageIndex := findIndex (Page.heap st) messageId messages in
         message ← defined (messageIndex ≫= fun ir => Page.heap st !! ir.2);
         summary ← await (Summarize (text message));
         r ← defined (snd <$> messageIndex);
         assign r (set_summary summary);;
         setMessages messages)
        (fun err =>
           setError (or_else (message err) "Failed to generate summary")))
     (setLoading false))%proc.

(** *** handleTranslate *)
Definition handleTranslate (messages : list Ref) (targetLang : string)
  (messageId : string) : Handler :=
  (tryFinally
     (tryCatch
        (setLoading true;;
         setError "";;
         st ← getState;
         let messageIndex := findIndex (Page.heap st) messageId messages in
         message ← defined (messageIndex ≫= fun ir => Page.heap st !! ir.2);
         translation ←
           await (Translate (text message) targetLang (detectedLang message));
         r ← defined (snd <$> messageIndex);
         assign r (set_translation translation targetLang);;
         setMessages messages)
        (fun err =>
           setError (or_else (message err)
                       "Translation failed. Language pair may not be supported.")))
     (setLoading false))%proc.

(** *** What the rendered page lets the user do *)

(** [{message.detectedLang === "en" && message.text.length > 150 && (...)}]
    around the Summarize button. *)
Definition summarizeShown (message : Message) : bool :=
  bool_decide (detectedLang message = Some "en")
  && (150 <? String.length (text message)).

(** [disabled={loading}] on the Summarize, Translate and Send buttons. *)
Definition buttonsDisabled (st : State) : bool := Page.loading st.

Definition onSend (st : State) (now : string) (languageDetection : bool)
  : Handler :=
  handleSend (Page.inputText st) now languageDetection.
Definition onSummarize (st : State) (messageId : string) : Handler :=
  handleSummarize (Page.messages st) messageId.
Definition onTranslate (st : State) (messageId : string) : Handler :=
  handleTranslate (Page.messages st) (Page.targetLang st) messageId.

End Home.


(** ** Concrete pages and services *)

Module Scenario.
Import ChatTranslator.

Definition hello : Message :=
  {| id := 1; text := "Hello world"; detectedLang := "English";
     confidence := "95.0"; translations := ∅; showTranslation := false;
     loading := None; error := None |}.

Definition bonjour : Message :=
  {| id := 2; text := " Bonjour "; detectedLang := "French";
     confidence := "90.0"; translations := ∅; showTranslation := false;
     loading := None; error := None |}.

(** [hello] with two stored translations. *)
Definition hello_es_fr : Message :=
  translated "fr" "Bonjour le monde" (translated "es" "Hola mundo" hello).

Definition page (ms : list Message) (target : string) : State :=
  {| inputText := ""; messages := ms; targetLanguage := target;
     isSupported := true |}.

Definition start (st : State) : World State Call :=
  {| state := st; trace := [] |}.

(** Services that detect [lang] and answer the translation with [t]. *)
Definition services (lang : string) (t : Result string) : Oracle Call reply :=
  fun c =>
    match c with
    | CreateDetector => Fulfilled tt
    | Detect _ => Fulfilled [{| detectedLanguage := lang; score := 95 # 100 |}]
    | CreateTranslator _ _ => Fulfilled tt
    | Translate _ => t
    end.

(** Services whose translator cannot be created for the pair. *)
Definition unsupported_pair (lang : string) : Oracle Call reply :=
  fun c =>
    match c with
    | CreateDetector => Fulfilled tt
    | Detect _ => Fulfilled [{| detectedLanguage := lang; score := 95 # 100 |}]
    | CreateTranslator _ _ => Rejected {| message := "UnsupportedLanguagePair" |}
    | Translate _ => Rejected {| message := "no translator" |}
    end.

(** Services whose detection fails. *)
Definition detection_failed : Oracle Call reply :=
  fun c =>
    match c with
    | CreateDetector => Fulfilled tt
    | Detect _ => Rejected {| message := "DetectionFailed" |}
    | CreateTranslator _ _ => Fulfilled tt
    | Translate _ => Fulfilled ""
    end.

(** Two messages on a page whose target language is French. *)
Definition two_messages : World State Call :=
  start (page [hello; bonjour] "fr").

(** [hello] alone, French selected; then after a translate that failed. *)
Definition hello_fr : World State Call := start (page [hello] "fr").
Definition hello_fr_failed : World State Call :=
  run (unsupported_pair "en") (onTranslate (state hello_fr) 1) hello_fr.
Definition hello_fr_failed_then_translated : World State Call :=
  run (services "en" (Fulfilled "Bonjour le monde"))
    (onTranslate (state hello_fr_failed) 1) hello_fr_failed.

(** [hello] with its two translations, Turkish selected. *)
Definition hello_tr : World State Call := start (page [hello_es_fr] "tr").

(** [hello], English selected. *)
Definition hello_en : World State Call := start (page [hello] "en").

(** Translate is clicked, and clicked again while the first is in flight. *)
Definition first_click : World State Call * Handler :=
  advance (onTranslate (state hello_fr) 1) hello_fr.
Definition second_click : World State Call * Handler :=
  advance (onTranslate (state first_click.1) 1) first_click.1.
Definition both_finished : World State Call :=
  let o := services "en" (Fulfilled "Bonjour le monde") in
  finish o second_click.2 (finish o first_click.2 second_click.1).

(** A display-name table and a percentage, for [handleSubmit]. *)
Definition displayName (tag locale : string) : Result string :=
  if decide (tag = "en") then Fulfilled "English"
  else if decide (tag = "fr") then Fulfilled "French"
  else Fulfilled tag.
Definition percent (q : Q) : string := "95.0".

(** [hello] is translated into English, the language it is detected in. *)
Definition hello_en_translated : World State Call :=
  run (services "en" (Fulfilled "Hello world"))
    (onTranslate (state hello_en) 1) hello_en.

(** "Hello" is typed and submitted at time 1700000000000, and detection
    fails. *)
Definition typed_hello : World State Call :=
  start {| inputText := "Hello"; messages := [bonjour];
           targetLanguage := "en"; isSupported := true |}.
Definition submit_failed : World State Call :=
  run detection_failed
    (onSubmit displayName percent (state typed_hello) 1700000000000)
    typed_hello.

End Scenario.


Module HomeScenario.
Import Home.

(** A French text of 500 characters. *)
Definition long_text : string :=
  string_of_list_ascii (repeat "a"%char 500).

Definition french : Message :=
  {| id := "1700000000000"; text := long_text; detectedLang := Some "fr";
     summary := None; translation := None; targetLang := None |}.

Definition hello : Message :=
  {| id := "1700000000001"; text := "Hello world"; detectedLang := Some "en";
     summary := None; translation := None; targetLang := None |}.

Definition page (objects : list Message) (target : string) : Page.State :=
  {| Page.heap := objects; Page.inputText := "";
     Page.messages := seq 0 (length objects); Page.targetLang := target;
     Page.loading := false; Page.error := "" |}.

Definition start (st : Page.State) : World Page.State Call :=
  {| state := st; trace := [] |}.

(** Services that answer every call; detection finds [langs]. *)
Definition services (langs : list string) (summary translation : string)
  : Oracle Call reply :=
  fun c =>
    match c with
    | DetectLanguage _ => Fulfilled (map (fun l => {| language := l |}) langs)
    | Summarize _ => Fulfilled summary
    | Translate _ _ _ => Fulfilled translation
    end.

(** The French message is summarized. *)
Definition french_page : World Page.State Call := start (page [french] "en").
Definition french_summarized : World Page.State Call :=
  run (services [] "Un resume" "")
    (onSummarize (state french_page) "1700000000000") french_page.

(** [hello] is translated into Spanish, then into French. *)
Definition hello_page : World Page.State Call := start (page [hello] "es").
Definition hello_es : World Page.State Call :=
  run (services [] "" "Hola mundo")
    (onTranslate (state hello_page) "1700000000001") hello_page.
Definition hello_es_fr : World Page.State Call :=
  run (services [] "" "Bonjour le monde")
    (handleTranslate (Page.messages (state hello_es)) "fr" "1700000000001")
    hello_es.

(** [hello], English selected. *)
Definition hello_en : World Page.State Call := start (page [hello] "en").

(** [hello] is translated into English, its detected language. *)
Definition hello_en_translated : World Page.State Call :=
  run (services [] "" "Hello world")
    (onTranslate (state hello_en) "1700000000001") hello_en.

(** "Hello" is sent and the detection answers with no element. *)
Definition typed_hello : World Page.State Call :=
  start {| Page.heap := []; Page.inputText := "Hello"; Page.messages := [];
           Page.targetLang := "en"; Page.loading := false; Page.error := "" |}.
Definition sent_undetected : World Page.State Call :=
  run (services [] "" "")
    (onSend (state typed_hello) "1700000000002" true) typed_hello.

End HomeScenario.


(** ** Relations between the states a handler goes through *)

Module Invariant.

Section Steps.
Context {St Call : Type} {reply : Call -> Type}.

(** [steps R p]: every state update of [p], on every path and from every
    state, takes the state to one that [R] relates it to. *)
Fixpoint steps (R : St -> St -> Prop) {A : Type} (p : Proc St Call reply A)
  : Prop :=
  match p with
  | Ret _ | Throw _ => True
  | SetState f k => (forall s, R s (f s)) /\ steps R k
  | GetState k => forall s, steps R (k s)
  | Emit _ k => steps R k
  | Await c k => forall r, steps R (k r)
  end.

End Steps.

End Invariant.
Import Invariant.

(** ** What ChatTranslator renders for a message *)

Module ChatTranslatorPage.
Import ChatTranslator.

(** [{message.showTranslation && message.translations[targetLanguage] &&
    (...)}]: the box with the translation into the selected language; an
    empty string is falsy as a missing key is. *)
Definition translationShown (targetLanguage : string) (message : Message)
  : option string :=
  if showTranslation message then
    match translations message !! targetLanguage with
    | Some t => if truthy t then Some t else None
    | None => None
    end
  else None.

(** [{message.error && (...)}], which is written inside that box. *)
Definition errorShown (targetLanguage : string) (message : Message)
  : option string :=
  match translationShown targetLanguage message with
  | Some _ =>
      match error message with
      | Some e => if truthy e then Some e else None
      | None => None
      end
  | None => None
  end.

(** The Clear button of a message is there exactly when a translation is
    stored. *)
Definition tidy (msg : Message) : Prop :=
  showTranslation msg = bool_decide (translations msg ≠ ∅).

(** From [st] to [st'] nothing changed but [translations],
    [showTranslation], [loading] and [error] of messages with the id. *)
Definition onlyTouches (messageId : Z) (st st' : State) : Prop :=
  inputText st' = inputText st
  /\ targetLanguage st' = targetLanguage st
  /\ isSupported st' = isSupported st
  /\ Forall2
       (fun old new =>
          id new = id old /\ text new = text old
          /\ detectedLang new = detectedLang old
          /\ confidence new = confidence old
          /\ (id old ≠ messageId -> new = old))
       (messages st) (messages st').

(** The ids of the messages, in the order of the store. *)
Definition ids (st : State) : list Z := map id (messages st).

(** The calls one translate can issue, in their order. *)
Definition translateCalls (input sourceLang targetLanguage : string)
  : list Call :=
  [CreateDetector; Detect input; CreateTranslator sourceLang targetLanguage;
   Translate input].

End ChatTranslatorPage.

(** ** What stays of the objects of Home *)

Module HomePage.
Import Home.

(** From [st] to [st'] the heap kept its objects, each with its [id],
    [text] and [detectedLang]. *)
Definition extends (st st' : Page.State) : Prop :=
  length (Page.heap st) <= length (Page.heap st')
  /\ forall r m,
       Page.heap st !! r = Some m ->
       exists m', Page.heap st' !! r = Some m'
                  /\ id m' = id m /\ text m' = text m
                  /\ detectedLang m' = detectedLang m.

(** The state with the cells a summarize or translate writes when it ends. *)
Definition settled (heap : list Message) (messages : list Ref)
  (error : string) (st : Page.State) : Page.State :=
  {| Page.heap := heap; Page.inputText := Page.inputText st;
     Page.messages := messages; Page.targetLang := Page.targetLang st;
     Page.loading := false; Page.error := error |}.

(** The page and an array of references both resolve in the heap. *)
Definition resolves (snapshot : list Ref) (st : Page.State) : Prop :=
  wellFormed st
  /\ Forall (fun r => r < length (Page.heap st)) snapshot.

End HomePage.


(** * Properties *)

(** ** Handlers in general *)

Section AsyncFacts.
Context {St Call : Type} {reply : Call -> Type}.

(** Running a handler is issuing its first call and then finishing it. *)
Lemma run_advance_finish {A} (o : Oracle Call reply)
  (p : Proc St Call reply A) (w : World St Call) :
  run o p w = finish o (advance p w).2 (advance p w).1.
Proof.
  revert w. induction p as [a|err|f k IH|k IH|out k IH|c k IH]; intros w; simpl;
    auto.
Qed.

Lemma inert_bind (P : St -> Prop) {A B} (p : Proc St Call reply A)
  (f : A -> Proc St Call reply B) :
  inert P p -> (forall a, inert P (f a)) -> inert P (bind p f).
Proof.
  intros Hp Hf.
  induction p as [a|err|g k IH|k IH|out k IH|c k IH]; simpl in *; intuition.
Qed.

Lemma inert_tryCatch (P : St -> Prop) {A} (p : Proc St Call reply A)
  (h : Thrown -> Proc St Call reply A) :
  inert P p -> (forall err, inert P (h err)) -> inert P (tryCatch p h).
Proof.
  intros Hp Hh.
  induction p as [a|err|g k IH|k IH|out k IH|c k IH]; simpl in *; intuition.
Qed.

Lemma inert_await (P : St -> Prop) (c : Call) :
  inert P (await (St := St) (reply := reply) c).
Proof. intros [v|err]; exact I. Qed.

Lemma inert_defined (P : St -> Prop) {A} (x : option A) :
  inert P (defined (St := St) (Call := Call) (reply := reply) x).
Proof. destruct x; exact I. Qed.

Lemma inert_run (P : St -> Prop) {A} (o : Oracle Call reply)
  (p : Proc St Call reply A) (w : World St Call) :
  inert P p -> P (state w) -> state (run o p w) = state w.
Proof.
  revert w. induction p as [a|err|f k IH|k IH|out k IH|c k IH];
    intros w Hp Hw; simpl in *; auto.
  - destruct Hp as [Hf Hk].
    assert (E : state (update f w) = state w) by (simpl; auto).
    rewrite IH; [exact E|exact Hk|by rewrite E].
  - rewrite IH; auto.
  - rewrite IH; auto.
Qed.

Lemma inert_advance (P : St -> Prop) {A}
  (p : Proc St Call reply A) (w : World St Call) :
  inert P p -> inert P (advance p w).2.
Proof.
  revert w. induction p as [a|err|f k IH|k IH|out k IH|c k IH];
    intros w Hp; simpl in *; auto.
  destruct Hp as [_ Hk]. auto.
Qed.

Lemma inert_resume (P : St -> Prop) {A} (o : Oracle Call reply)
  (p : Proc St Call reply A) (w : World St Call) :
  inert P p -> inert P (resume o p w).2.
Proof.
  destruct p; simpl; auto. intros Hp. apply inert_advance, Hp.
Qed.

Lemma inert_finish (P : St -> Prop) {A} (o : Oracle Call reply)
  (p : Proc St Call reply A) (w : World St Call) :
  inert P p -> P (state w) -> state (finish o p w) = state w.
Proof.
  destruct p; simpl; auto. intros Hp Hw. apply (inert_run P); auto.
Qed.

(** The trace only grows. *)
Lemma run_trace_extends {A} (o : Oracle Call reply)
  (p : Proc St Call reply A) (w : World St Call) :
  exists evs, trace (run o p w) = trace w ++ evs.
Proof.
  revert w. induction p as [a|err|f k IH|k IH|out k IH|c k IH]; intros w; simpl.
  - exists []. by rewrite app_nil_r.
  - exists []. by rewrite app_nil_r.
  - apply (IH (update f w)).
  - apply IH.
  - destruct (IH (record (Shown out) w)) as [evs ->]. simpl.
    exists (Shown out :: evs). by rewrite <- app_assoc.
  - destruct (IH (o c) (record (Called c) w)) as [evs ->]. simpl.
    exists (Called c :: evs). by rewrite <- app_assoc.
Qed.

(** The calls of a world whose trace has grown. *)
Lemma calls_record_called (w : World St Call) (c : Call) :
  calls (record (Called c) w) = calls w ++ [c].
Proof. unfold calls. simpl. by rewrite omap_app. Qed.

Lemma calls_of_trace (w w' : World St Call) (evs : list (Event Call)) :
  trace w' = trace w ++ evs ->
  calls w' = calls w
             ++ omap (fun e => match e with
                               | Called c => Some c
                               | Shown _ => None
                               end) evs.
Proof. intros H. unfold calls. by rewrite H, omap_app. Qed.

Lemma countCalls_of_trace (p : Call -> bool) (w w' : World St Call)
  (evs : list (Event Call)) :
  trace w' = trace w ++ evs ->
  countCalls p w'
  = countCalls p w
    + length (List.filter p
                (omap (fun e => match e with
                                | Called c => Some c
                                | Shown _ => None
                                end) evs)).
Proof.
  intros H. unfold countCalls.
  by rewrite (calls_of_trace _ _ _ H), List.filter_app, length_app.
Qed.

End AsyncFacts.

(** ** ChatTranslator *)

Module ChatTranslatorFacts.
Import ChatTranslator.

Implicit Types (w : World State Call) (o : Oracle Call reply).
Implicit Types (msg : Message) (prev : list Message) (messageId : Z).

Lemma patch_absent messageId f prev :
  (forall msg, msg ∈ prev -> id msg ≠ messageId) -> patch messageId f prev = prev.
Proof.
  induction prev as [|m prev IH]; intros H; simpl; [done|].
  rewrite decide_False by (apply H; left).
  f_equal. apply IH. intros msg Hin. apply H. by right.
Qed.

Lemma patch_length messageId f prev :
  length (patch messageId f prev) = length prev.
Proof. apply length_map. Qed.

Lemma patch_patch messageId f g prev :
  (forall msg, id (g msg) = id msg) ->
  patch messageId f (patch messageId g prev) = patch messageId (f ∘ g) prev.
Proof.
  intros Hg. induction prev as [|m prev IH]; simpl; [done|].
  rewrite IH. f_equal.
  destruct (decide (id m = messageId)) as [E|E].
  - rewrite decide_True by (by rewrite Hg). done.
  - rewrite decide_False by done. done.
Qed.

Lemma patch_ext messageId f g prev :
  (forall msg, f msg = g msg) -> patch messageId f prev = patch messageId g prev.
Proof.
  intros H. unfold patch. apply map_ext. intros m. by rewrite H.
Qed.

Lemma setMessages_patch_inert messageId f :
  inert (absent messageId) (setMessages (patch messageId f)).
Proof.
  simpl. split; [|exact I]. intros [i ms t s] H. unfold with_messages. simpl.
  f_equal. apply patch_absent, H.
Qed.

(** Every write of [handleTranslate] goes through [patch messageId]: on a
    store without that id it changes nothing. *)
Lemma handleTranslate_inert messages targetLanguage messageId :
  inert (absent messageId) (handleTranslate messages targetLanguage messageId).
Proof.
  unfold handleTranslate.
  apply inert_bind; [apply setMessages_patch_inert|]. intros _.
  apply inert_tryCatch.
  - apply inert_bind; [apply inert_await|]. intros _.
    apply inert_bind; [apply inert_defined|]. intros message.
    apply inert_bind; [apply inert_await|]. intros detectionResult.
    apply inert_bind; [apply inert_defined|]. intros first.
    case_decide.
    + apply inert_bind; [exact I|]. intros _. apply setMessages_patch_inert.
    + apply inert_bind; [apply inert_await|]. intros _.
      apply inert_bind; [apply inert_await|]. intros translation.
      apply setMessages_patch_inert.
  - intros err. apply inert_bind; [exact I|]. intros _.
    apply setMessages_patch_inert.
Qed.

Lemma delete_absent messageId o w :
  absent messageId (state (run o (handleDeleteMessage messageId) w)).
Proof.
  intros msg. simpl. rewrite list_elem_of_filter. tauto.
Qed.

Lemma settle_inert P n o (wp : World State Call * Handler) :
  inert P wp.2 -> inert P (settle n o wp).2.
Proof.
  intros H. induction n as [|n IH]; simpl; [done|]. by apply inert_resume.
Qed.

(** *** The three ways a translate ends *)

Lemma with_loading_twice b b' :
  forall msg, (with_loading b ∘ with_loading b') msg = with_loading b msg.
Proof. by intros []. Qed.

Lemma translated_after_loading tl tr b :
  forall msg, (translated tl tr ∘ with_loading b) msg = translated tl tr msg.
Proof. by intros []. Qed.

Lemma failed_after_loading b :
  forall msg, (failed ∘ with_loading b) msg = failed msg.
Proof. by intros []. Qed.

(** The handler's first write and its last one, together. *)
Lemma loading_then_patch messageId f w :
  (forall msg, (f ∘ with_loading true) msg = f msg) ->
  with_messages
    (patch messageId f (patch messageId (with_loading true) (messages (state w))))
    (state w)
  = with_messages (patch messageId f (messages (state w))) (state w).
Proof.
  intros H. rewrite patch_patch by done. by rewrite (patch_ext _ _ f).
Qed.

Lemma translate_same_language o w snapshot targetLanguage messageId message :
  Detects o snapshot messageId message targetLanguage ->
  run o (handleTranslate snapshot targetLanguage messageId) w
  = {| state := with_messages
                  (patch messageId (with_loading false) (messages (state w)))
                  (state w);
       trace := trace w ++ [Called CreateDetector;
                            Called (Detect (trim (text message)));
                            Shown (Alert same_language)] |}.
Proof.
  intros (Hm & [u Hd] & first & rest & Hr & Hs). unfold handleTranslate. simpl.
  rewrite Hd, Hm. simpl. rewrite Hr. simpl.
  rewrite decide_True by done. simpl.
  unfold update, record. simpl.
  rewrite <- !app_assoc. simpl. f_equal.
  apply loading_then_patch, with_loading_twice.
Qed.

Lemma translate_success o w snapshot targetLanguage messageId
  message sourceLang translation :
  Detects o snapshot messageId message sourceLang ->
  sourceLang ≠ targetLanguage ->
  Translates o message sourceLang targetLanguage translation ->
  run o (handleTranslate snapshot targetLanguage messageId) w
  = {| state := with_messages
                  (patch messageId (translated targetLanguage translation)
                     (messages (state w)))
                  (state w);
       trace := trace w ++ [Called CreateDetector;
                            Called (Detect (trim (text message)));
                            Called (CreateTranslator sourceLang targetLanguage);
                            Called (Translate (trim (text message)))] |}.
Proof.
  intros (Hm & [u Hd] & first & rest & Hr & Hs) Hne [[u' Hc] Ht].
  subst sourceLang. unfold handleTranslate. simpl.
  rewrite Hd, Hm. simpl. rewrite Hr. simpl.
  rewrite decide_False by done. simpl. rewrite Hc. simpl. rewrite Ht. simpl.
  unfold update, record. simpl.
  rewrite <- !app_assoc. simpl. f_equal.
  apply loading_then_patch, translated_after_loading.
Qed.

Lemma translate_failure o w snapshot targetLanguage messageId err cs :
  TranslateFails o snapshot targetLanguage messageId err cs ->
  run o (handleTranslate snapshot targetLanguage messageId) w
  = {| state := with_messages (patch messageId failed (messages (state w)))
                  (state w);
       trace := trace w ++ map Called cs
                  ++ [Shown (ConsoleError "Translation error:" err)] |}.
Proof.
  intros H. unfold handleTranslate.
  destruct H as [err Hd|u Hd Hm|u message err Hd Hm Hr|u message Hd Hm Hr
                |message sourceLang err (Hm & [u Hd] & first & rest & Hr & Hs) Hne Hc
                |message sourceLang u' err (Hm & [u Hd] & first & rest & Hr & Hs) Hne Hc Ht];
    simpl; rewrite Hd; try rewrite Hm; simpl; try rewrite Hr; simpl;
    try (subst sourceLang; rewrite decide_False by done; simpl; rewrite Hc; simpl);
    try (rewrite Ht; simpl);
    unfold update, record; simpl; rewrite <- !app_assoc; simpl; f_equal;
    apply loading_then_patch, failed_after_loading.
Qed.

(** Every answer of the services is one of the three. *)
Lemma translate_outcome o snapshot targetLanguage messageId :
  (exists err cs, TranslateFails o snapshot targetLanguage messageId err cs)
  \/ (exists message, Detects o snapshot messageId message targetLanguage)
  \/ (exists message sourceLang translation,
        Detects o snapshot messageId message sourceLang
        /\ sourceLang ≠ targetLanguage
        /\ Translates o message sourceLang targetLanguage translation).
Proof.
  destruct (o CreateDetector) as [u|err] eqn:Hd;
    [|left; eauto using detector_rejected].
  destruct (find_message messageId snapshot) as [message|] eqn:Hm;
    [|left; eauto using message_undefined].
  destruct (o (Detect (trim (text message)))) as [[|first rest]|err] eqn:Hr;
    [left; eauto using detect_empty| |left; eauto using detect_rejected].
  assert (HD : Detects o snapshot messageId message (detectedLanguage first)).
  { repeat split; eauto. }
  destruct (decide (detectedLanguage first = targetLanguage)) as [E|E].
  { right; left. exists message. by rewrite <- E. }
  destruct (o (CreateTranslator (detectedLanguage first) targetLanguage))
    as [u'|err] eqn:Hc; [|left; eauto using translator_rejected].
  destruct (o (Translate (trim (text message)))) as [translation|err] eqn:Ht;
    [|left; eauto using translate_rejected].
  right; right. exists message, (detectedLanguage first), translation.
  repeat split; eauto.
Qed.

(** Whatever the services answer, the handler ends with one [patch] of the
    store, by a function that turns [loading] off and keeps every entry of
    [translations] under another key than [targetLanguage]. *)
Lemma translate_final_patch o w snapshot targetLanguage messageId :
  exists f,
    state (run o (handleTranslate snapshot targetLanguage messageId) w)
    = with_messages (patch messageId f (messages (state w))) (state w)
    /\ lastSpread targetLanguage f.
Proof.
  unfold lastSpread.
  destruct (translate_outcome o snapshot targetLanguage messageId)
    as [(err & cs & H)|[(message & H)|(message & src & tr & H & Hne & Ht)]].
  - exists failed. rewrite (translate_failure _ _ _ _ _ _ _ H). eauto.
  - exists (with_loading false).
    rewrite (translate_same_language _ _ _ _ _ _ H). eauto.
  - exists (translated targetLanguage tr).
    rewrite (translate_success _ _ _ _ _ _ _ _ H Hne Ht). eauto.
Qed.

(** C2. A translate for [messageId] is issued and is in flight, at any
    stage; the message is deleted from the store of that moment, whatever
    happened to it meanwhile; then the translate runs to its end, whatever
    the services answer. The late writes resolve the message by id in the
    store they find, find nothing and leave the store as the delete left it:
    the message is gone, every other message is as it was, and the size is
    that after the delete. The same holds on any later store without the
    id. *)
Theorem C2_delete_then_late_translate_is_noop :
  forall w messageId (o1 o2 : Oracle Call reply) (n : nat) w',
    let parked := (settle n o1 (advance (onTranslate (state w) messageId) w)).2 in
    let deleted := run o2 (handleDeleteMessage messageId) w' in
    let final := finish o2 parked deleted in
    state final = state deleted
    /\ messages (state final)
       = filter (fun msg => id msg ≠ messageId) (messages (state w'))
    /\ (forall msg, msg ∈ messages (state final) -> id msg ≠ messageId)
    /\ length (messages (state final)) = length (messages (state deleted))
    /\ (forall w'', absent messageId (state w'') ->
                    state (finish o2 parked w'') = state w'').
Proof.
  intros w messageId o1 o2 n w' parked deleted final.
  assert (Hp : inert (absent messageId) parked).
  { apply settle_inert, inert_advance, handleTranslate_inert. }
  assert (Hfin : state final = state deleted).
  { apply (inert_finish (absent messageId)); [done|apply delete_absent]. }
  rewrite Hfin. repeat split.
  - apply delete_absent.
  - intros w'' Hw. by apply (inert_finish (absent messageId)).
Qed.

(** C2 at work: [hello] is deleted after two promises of its translate have
    settled; the translate then ends and [bonjour] alone remains. *)
Lemma C2_delete_then_late_translate_is_noop_witness :
  messages
    (state
       (finish (Scenario.services "en" (Fulfilled "Bonjour le monde"))
          (settle 2 (Scenario.services "en" (Fulfilled "Bonjour le monde"))
             (advance (onTranslate (state Scenario.two_messages) 1)
                Scenario.two_messages)).2
          (run (Scenario.services "en" (Fulfilled "Bonjour le monde"))
             (handleDeleteMessage 1)
             (settle 2 (Scenario.services "en" (Fulfilled "Bonjour le monde"))
                (advance (onTranslate (state Scenario.two_messages) 1)
                   Scenario.two_messages)).1)))
  = [Scenario.bonjour].
Proof.
  etransitivity;
    [exact (proj1 (proj2 (C2_delete_then_late_translate_is_noop
                            Scenario.two_messages 1
                            (Scenario.services "en" (Fulfilled "Bonjour le monde"))
                            (Scenario.services "en" (Fulfilled "Bonjour le monde"))
                            2
                            (settle 2
                               (Scenario.services "en" (Fulfilled "Bonjour le monde"))
                               (advance (onTranslate (state Scenario.two_messages) 1)
                                  Scenario.two_messages)).1)))|].
  reflexivity.
Defined.

(** *** Lists of messages under [patch] *)

Lemma patch_Forall2 (R : Message -> Message -> Prop) messageId f prev :
  (forall msg, id msg = messageId -> R msg (f msg)) ->
  (forall msg, id msg ≠ messageId -> R msg msg) ->
  Forall2 R prev (patch messageId f prev).
Proof.
  intros Hf Hr. induction prev as [|m prev IH]; simpl; constructor; [|done].
  case_decide; auto.
Qed.

Lemma patch_elem messageId f prev msg :
  msg ∈ patch messageId f prev ->
  exists old, old ∈ prev
    /\ (id old = messageId /\ msg = f old \/ id old ≠ messageId /\ msg = old).
Proof.
  induction prev as [|m prev IH]; simpl; [by intros ?%elem_of_nil|].
  intros [->|H]%elem_of_cons.
  - exists m. split; [left|]. case_decide; auto.
  - destruct (IH H) as (old & Hin & Hold). exists old. split; [by right|done].
Qed.

Lemma patch_map_same {B} (g : Message -> B) messageId f prev :
  (forall msg, g (f msg) = g msg) ->
  map g (patch messageId f prev) = map g prev.
Proof.
  intros H. unfold patch. rewrite map_map. apply map_ext. intros m.
  case_decide; auto.
Qed.

Lemma find_message_map (g : Message -> Message) messageId snapshot :
  (forall msg, id (g msg) = id msg) ->
  find_message messageId (map g snapshot) = g <$> find_message messageId snapshot.
Proof.
  intros Hg. unfold find_message.
  induction snapshot as [|m l IH]; simpl; [done|].
  rewrite Hg. case_decide; simpl; [done|].
  unfold find_message in IH.
  destruct (list_find (fun msg => id msg = messageId) (map g l)) as [[i x]|];
    destruct (list_find (fun msg => id msg = messageId) l) as [[j y]|];
    simpl in *; congruence.
Qed.

(** C10. Every translate of a message of the closed-over array first creates
    a detector and, once it exists, detects the language of the trimmed text
    of the message anew. The tag detected there is what is compared with the
    selected target language and what the translator is created from. The
    stored [detectedLang], a display name written at submit time, is never
    read: with any other value in its place the handler is the same. *)
Theorem C10_translate_detects_afresh :
  forall o w snapshot targetLanguage messageId message,
    find_message messageId snapshot = Some message ->
    let h := handleTranslate snapshot targetLanguage messageId in
    let issued := advance h w in
    calls issued.1 = calls w ++ [CreateDetector]
    /\ inFlight issued.2 = true
    /\ (forall u, o CreateDetector = Fulfilled u ->
        calls (resume o issued.2 issued.1).1
        = calls w ++ [CreateDetector; Detect (trim (text message))])
    /\ (forall sourceLang,
        Detects o snapshot messageId message sourceLang ->
        (sourceLang = targetLanguage ->
         trace (run o h w)
         = trace w ++ [Called CreateDetector;
                       Called (Detect (trim (text message)));
                       Shown (Alert same_language)])
        /\ (sourceLang ≠ targetLanguage ->
            exists rest,
              calls (run o h w)
              = calls w ++ [CreateDetector; Detect (trim (text message));
                            CreateTranslator sourceLang targetLanguage] ++ rest))
    /\ (forall name,
        handleTranslate (map (with_detectedLang name) snapshot)
          targetLanguage messageId = h).
Proof.
  intros o w snapshot targetLanguage messageId message Hm h issued.
  split; [unfold issued, h, handleTranslate; simpl;
          by rewrite calls_record_called|].
  split; [done|]. split; [|split].
  - intros u Hd. unfold issued, h, handleTranslate. simpl.
    rewrite Hd, Hm. simpl. rewrite !calls_record_called.
    by rewrite <- app_assoc.
  - intros sourceLang HD. split.
    + intros ->. unfold h. by rewrite (translate_same_language _ _ _ _ _ _ HD).
    + intros Hne.
      destruct (o (CreateTranslator sourceLang targetLanguage)) as [u|err] eqn:Hc.
      * destruct (o (Translate (trim (text message)))) as [t|err] eqn:Ht.
        -- exists [Translate (trim (text message))]. unfold h.
           erewrite calls_of_trace; last first.
           { erewrite translate_success; [done|exact HD|done|split; eauto]. }
           done.
        -- exists [Translate (trim (text message))]. unfold h.
           erewrite calls_of_trace; last first.
           { erewrite translate_failure;
               [done|eapply translate_rejected; eauto]. }
           done.
      * exists []. unfold h.
        erewrite calls_of_trace; last first.
        { erewrite translate_failure;
            [done|eapply translator_rejected; eauto]. }
        done.
  - intros name. unfold h, handleTranslate.
    rewrite find_message_map by done.
    destruct (find_message messageId snapshot); reflexivity.
Qed.

(** C10 at work: [hello] is among two messages and French is selected. *)
Lemma C10_translate_detects_afresh_witness :
  (find_message 1 [Scenario.hello; Scenario.bonjour] = Some Scenario.hello
   /\ calls (advance
               (handleTranslate [Scenario.hello; Scenario.bonjour] "fr" 1)
               Scenario.two_messages).1
      = [CreateDetector])
  /\ calls (resume (Scenario.services "en" (Fulfilled "Bonjour le monde"))
              (advance
                 (handleTranslate [Scenario.hello; Scenario.bonjour] "fr" 1)
                 Scenario.two_messages).2
              (advance
                 (handleTranslate [Scenario.hello; Scenario.bonjour] "fr" 1)
                 Scenario.two_messages).1).1
     = [CreateDetector; Detect "Hello world"]
  /\ exists rest,
       calls (run (Scenario.services "en" (Fulfilled "Bonjour le monde"))
                (handleTranslate [Scenario.hello; Scenario.bonjour] "fr" 1)
                Scenario.two_messages)
       = [CreateDetector; Detect "Hello world"; CreateTranslator "en" "fr"]
         ++ rest.
Proof.
  pose (o := Scenario.services "en" (Fulfilled "Bonjour le monde")).
  pose (T := C10_translate_detects_afresh o Scenario.two_messages
               [Scenario.hello; Scenario.bonjour] "fr" 1 Scenario.hello eq_refl).
  split; [split; [reflexivity|]|split].
  - exact (proj1 T).
  - exact (proj1 (proj2 (proj2 T)) tt eq_refl).
  - refine (proj2 (proj1 (proj2 (proj2 (proj2 T))) "en" _) _).
    + split; [reflexivity|]. split; [by exists tt|].
      eexists _, _. split; reflexivity.
    + discriminate.
Defined.

(** *** The last write of a translate in flight *)

Lemma endsWithPatch_run targetLanguage messageId o (p : Handler) w :
  endsWithPatch targetLanguage messageId p ->
  exists f, lastSpread targetLanguage f
    /\ state (run o p w)
       = with_messages (patch messageId f (messages (state w))) (state w).
Proof.
  revert w. induction p as [a|err|g k IH|k IH|out k IH|c k IH];
    intros w Hp; simpl in *; try done.
  - destruct Hp as [(f & Hf & Hg) ->]. exists f. simpl. by rewrite Hg.
  - apply IH, Hp.
  - destruct (IH (record (Shown out) w) Hp) as (f & Hf & ->). by exists f.
  - destruct (IH (o c) (record (Called c) w) (Hp _)) as (f & Hf & ->).
    by exists f.
Qed.

Lemma endsWithPatch_advance targetLanguage messageId (p : Handler) w :
  endsWithPatch targetLanguage messageId p ->
  inFlight (advance p w).2 = true ->
  endsWithPatch targetLanguage messageId (advance p w).2.
Proof.
  revert w. induction p as [a|err|g k IH|k IH|out k IH|c k IH];
    intros w Hp Hf; simpl in *; try done.
  - destruct Hp as [_ ->]. done.
  - by apply IH.
  - by apply IH.
Qed.

Lemma endsWithPatch_settle targetLanguage messageId n o
  (wp : World State Call * Handler) :
  endsWithPatch targetLanguage messageId wp.2 ->
  inFlight (settle n o wp).2 = true ->
  endsWithPatch targetLanguage messageId (settle n o wp).2.
Proof.
  intros Hp. induction n as [|n IH]; simpl; [done|].
  destruct (settle n o wp) as [w' p'] eqn:E. simpl in *.
  destruct p' as [a|err|g k|k|out k|c k]; simpl; try done.
  intros Hf. apply endsWithPatch_advance; [|done]. by apply IH.
Qed.

(** After its first write [handleTranslate] is parked on the detector, and
    what remains ends with one patch. *)
Lemma handleTranslate_endsWithPatch snapshot targetLanguage messageId w :
  endsWithPatch targetLanguage messageId
    (advance (handleTranslate snapshot targetLanguage messageId) w).2.
Proof.
  assert (Hcatch : forall err : Thrown,
    endsWithPatch targetLanguage messageId
      (bind (console_error "Translation error:" err)
         (fun _ => setMessages (patch messageId failed)))).
  { intros err. simpl. split; [|done]. exists failed.
    split; [right; by left|done]. }
  unfold handleTranslate. simpl. intros [u|err]; simpl; [|exact (Hcatch err)].
  destruct (find_message messageId snapshot) as [message|]; simpl;
    [|exact (Hcatch undefined_property)].
  intros [[|first rest]|err]; simpl;
    [exact (Hcatch undefined_property)| |exact (Hcatch err)].
  case_decide; simpl.
  - split; [|done]. exists (with_loading false). split; [by left|done].
  - intros [u'|err]; simpl; [|exact (Hcatch err)].
    intros [translation|err]; simpl; [|exact (Hcatch err)].
    split; [|done]. exists (translated targetLanguage translation).
    split; [right; right; by eexists|done].
Qed.

(** A translate in flight, at any stage, ends with one patch of the store
    it finds when it ends. *)
Lemma translate_in_flight_ends_with_patch snapshot targetLanguage messageId
  n o1 o2 w w' :
  let parked :=
    (settle n o1 (advance (handleTranslate snapshot targetLanguage messageId) w)).2 in
  inFlight parked = true ->
  exists f, lastSpread targetLanguage f
    /\ state (finish o2 parked w')
       = with_messages (patch messageId f (messages (state w'))) (state w').
Proof.
  intros parked Hf.
  assert (Hp : endsWithPatch targetLanguage messageId parked).
  { apply endsWithPatch_settle; [apply handleTranslate_endsWithPatch|done]. }
  destruct parked as [a|err|g k|k|out k|c k]; try done.
  simpl. apply (endsWithPatch_run targetLanguage messageId), Hp.
Qed.

(** C7. Every completion of a translate, whatever the services answer,
    leaves [loading] false on the messages of that id; this also holds for a
    translate in flight at any stage, on whatever store it finds when it
    ends. When the service interaction fails (the translator cannot be
    created for the pair, the translation is rejected, or an earlier step
    throws), the messages of that id get [error] set to the
    translation-failure text and [loading] false, and no [translations] map
    in the store changes. *)
Theorem C7_failed_translate_sets_error_and_clears_loading :
  forall o w snapshot targetLanguage messageId,
    let final := run o (handleTranslate snapshot targetLanguage messageId) w in
    (forall msg, msg ∈ messages (state final) -> id msg = messageId ->
                 loading msg = Some false)
    /\ (forall n o1 w',
        let parked :=
          (settle n o1
             (advance (handleTranslate snapshot targetLanguage messageId) w)).2 in
        inFlight parked = true ->
        forall msg, msg ∈ messages (state (finish o parked w')) ->
                    id msg = messageId -> loading msg = Some false)
    /\ (forall err cs,
        TranslateFails o snapshot targetLanguage messageId err cs ->
        messages (state final) = patch messageId failed (messages (state w))
        /\ (forall msg, msg ∈ messages (state final) -> id msg = messageId ->
                        error msg = Some translation_failed
                        /\ loading msg = Some false)
        /\ map translations (messages (state final))
           = map translations (messages (state w))).
Proof.
  intros o w snapshot targetLanguage messageId final.
  assert (Hclears : forall f prev msg,
             lastSpread targetLanguage f -> msg ∈ patch messageId f prev ->
             id msg = messageId -> loading msg = Some false).
  { intros f prev msg Hcases Hin Hid.
    apply patch_elem in Hin as (old & _ & [[_ ->]|[Hne ->]]); [|done].
    destruct Hcases as [->|[->|[t ->]]]; done. }
  split; [|split].
  - intros msg Hin Hid.
    destruct (translate_final_patch o w snapshot targetLanguage messageId)
      as (f & Hf & Hcases).
    unfold final in Hin. rewrite Hf in Hin.
    exact (Hclears f _ msg Hcases Hin Hid).
  - intros n o1 w' parked Hfl msg Hin Hid.
    destruct (translate_in_flight_ends_with_patch snapshot targetLanguage
                messageId n o1 o w w' Hfl) as (f & Hcases & Hf).
    fold parked in Hf. rewrite Hf in Hin.
    exact (Hclears f _ msg Hcases Hin Hid).
  - intros err cs H. unfold final. rewrite (translate_failure _ _ _ _ _ _ _ H).
    simpl. split; [done|]. split.
    + intros msg Hin Hid.
      apply patch_elem in Hin as (old & _ & [[_ ->]|[Hne ->]]); done.
    + by apply patch_map_same.
Qed.

(** C7 at work: no translator from English into Turkish. *)
Lemma C7_failed_translate_sets_error_and_clears_loading_witness :
  (TranslateFails (Scenario.unsupported_pair "en") [Scenario.hello_es_fr] "tr" 1
     {| message := "UnsupportedLanguagePair" |}
     [CreateDetector; Detect "Hello world"; CreateTranslator "en" "tr"]
   /\ messages (state (run (Scenario.unsupported_pair "en")
                         (handleTranslate [Scenario.hello_es_fr] "tr" 1)
                         Scenario.hello_tr))
      = [failed Scenario.hello_es_fr])
  /\ loading (failed Scenario.hello) = Some false.
Proof.
  pose (o := Scenario.unsupported_pair "en").
  pose (w := Scenario.hello_tr).
  assert (H : TranslateFails o [Scenario.hello_es_fr] "tr" 1
                {| message := "UnsupportedLanguagePair" |}
                [CreateDetector; Detect "Hello world"; CreateTranslator "en" "tr"]).
  { apply (translator_rejected o _ "tr" 1 Scenario.hello_es_fr "en").
    - split; [reflexivity|]. split; [by exists tt|].
      eexists _, _. split; reflexivity.
    - discriminate.
    - reflexivity. }
  split; [split; [exact H|]|].
  - exact (proj1 (proj2 (proj2 (C7_failed_translate_sets_error_and_clears_loading
                                  o w [Scenario.hello_es_fr] "tr" 1)) _ _ H)).
  - exact (proj1 (proj2 (C7_failed_translate_sets_error_and_clears_loading
                           o w [Scenario.hello_es_fr] "tr" 1))
             2 (Scenario.services "en" (Fulfilled "")) Scenario.hello_fr
             eq_refl (failed Scenario.hello)
             (list_elem_of_here _ _) eq_refl).
Defined.

(** C9, as stated, fails: a translate fails and records [error]; the next
    translate of the same message succeeds, stores its translation, and the
    message still carries the error. *)
Lemma C9_counterexample :
  exists msg,
    messages (state Scenario.hello_fr_failed_then_translated) = [msg]
    /\ translations msg !! "fr" = Some "Bonjour le monde"
    /\ loading msg = Some false
    /\ error msg = Some translation_failed
    /\ error msg <> None.
Proof.
  eexists. split; [reflexivity|]. repeat split. discriminate.
Qed.

(** C9, amended. A successful translate merges the translation, shows it and
    turns [loading] off, and leaves the [error] of every message as it was.
    No handler removes a recorded error: after a translate, whatever the
    services answer, each message has the error it had or the
    translation-failure text, and a clear keeps it. *)
Theorem C9_success_keeps_error :
  forall o w snapshot targetLanguage messageId,
    let final := run o (handleTranslate snapshot targetLanguage messageId) w in
    (forall message sourceLang translation,
        Detects o snapshot messageId message sourceLang ->
        sourceLang ≠ targetLanguage ->
        Translates o message sourceLang targetLanguage translation ->
        messages (state final)
        = patch messageId (translated targetLanguage translation)
            (messages (state w))
        /\ map error (messages (state final)) = map error (messages (state w)))
    /\ Forall2 (fun old new => error new = error old
                              \/ error new = Some translation_failed)
         (messages (state w)) (messages (state final))
    /\ map error (messages (state (run o (handleClearTranslation messageId) w)))
       = map error (messages (state w)).
Proof.
  intros o w snapshot targetLanguage messageId final. split; [|split].
  - intros message sourceLang translation HD Hne HT. unfold final.
    rewrite (translate_success _ _ _ _ _ _ _ _ HD Hne HT). simpl.
    split; [done|]. by apply patch_map_same.
  - destruct (translate_final_patch o w snapshot targetLanguage messageId)
      as (f & Hf & Hcases).
    unfold final. rewrite Hf. simpl. apply patch_Forall2; [|intros; by left].
    intros msg _. destruct Hcases as [->|[->|[t ->]]]; simpl; auto.
  - simpl. by apply patch_map_same.
Qed.

(** C9 at work: the failed translate of [hello], then the successful one. *)
Lemma C9_success_keeps_error_witness :
  map error (messages (state Scenario.hello_fr_failed_then_translated))
  = map error (messages (state Scenario.hello_fr_failed)).
Proof.
  refine (proj2 (proj1 (C9_success_keeps_error
                   (Scenario.services "en" (Fulfilled "Bonjour le monde"))
                   Scenario.hello_fr_failed
                   (messages (state Scenario.hello_fr_failed)) "fr" 1)
                   (failed Scenario.hello) "en" "Bonjour le monde" _ _ _)).
  - split; [reflexivity|]. split; [by exists tt|].
    eexists _, _. split; reflexivity.
  - discriminate.
  - split; [by exists tt|reflexivity].
Defined.

(** C5, as stated, fails: the clear takes no language and empties the whole
    map; the French entry of a message translated into Spanish and French
    does not survive it. *)
Lemma C5_counterexample :
  translations Scenario.hello_es_fr !! "fr" = Some "Bonjour le monde"
  /\ exists msg,
       messages (state (run (Scenario.services "en" (Fulfilled ""))
                          (handleClearTranslation 1) Scenario.hello_tr))
       = [msg]
       /\ translations msg !! "es" = None
       /\ translations msg !! "fr" = None.
Proof.
  split; [reflexivity|]. eexists. split; [reflexivity|]. split; reflexivity.
Qed.

(** C5, amended. [handleClearTranslation] takes a message id only. It issues
    no call and shows nothing; on every message of that id it empties the
    whole [translations] map and hides the translation, and keeps [id],
    [text], [detectedLang], [confidence], [loading] and [error]; every other
    message is unchanged, and so are the number and the order of messages. *)
Theorem C5_clear_empties_the_translations_of_one_message :
  forall o w messageId,
    let final := run o (handleClearTranslation messageId) w in
    trace final = trace w
    /\ messages (state final) = patch messageId cleared (messages (state w))
    /\ Forall2
         (fun old new =>
            id new = id old /\ text new = text old
            /\ detectedLang new = detectedLang old
            /\ confidence new = confidence old
            /\ loading new = loading old /\ error new = error old
            /\ (id old = messageId ->
                translations new = ∅ /\ showTranslation new = false)
            /\ (id old ≠ messageId -> new = old))
         (messages (state w)) (messages (state final)).
Proof.
  intros o w messageId final. split; [done|]. split; [done|].
  simpl. apply patch_Forall2; intros msg Hid; simpl; tauto.
Qed.

(** C5 at work: the clear of [hello] with its two translations. *)
Lemma C5_clear_empties_the_translations_of_one_message_witness :
  messages (state (run (Scenario.services "en" (Fulfilled ""))
                     (handleClearTranslation 1) Scenario.hello_tr))
  = [cleared Scenario.hello_es_fr].
Proof.
  exact (proj1 (proj2 (C5_clear_empties_the_translations_of_one_message
                         (Scenario.services "en" (Fulfilled "")) Scenario.hello_tr 1))).
Defined.

(** *** Submit *)

Lemma handleSubmit_outcome lt pc inputText now o w :
  truthy (trim inputText) = true ->
  let final := run o (handleSubmit lt pc inputText now) w in
  (exists u first rest name,
      o CreateDetector = Fulfilled u
      /\ o (Detect (trim inputText)) = Fulfilled (first :: rest)
      /\ lt (detectedLanguage first) "en" = Fulfilled name
      /\ messages (state final)
         = newMessage now inputText name (pc (score first)) :: messages (state w)
      /\ ChatTranslator.inputText (state final) = ""
      /\ trace final
         = trace w ++ [Called CreateDetector; Called (Detect (trim inputText))])
  \/ (exists err cs,
      state final = state w
      /\ trace final
         = trace w ++ map Called cs
             ++ [Shown (ConsoleError "Detection error:" err)]).
Proof.
  intros Hnb final. unfold final, handleSubmit. rewrite Hnb. simpl.
  destruct (o CreateDetector) as [u|err] eqn:Hd; simpl.
  2:{ right. exists err, [CreateDetector]. simpl. by rewrite <- app_assoc. }
  destruct (o (Detect (trim inputText))) as [[|first rest]|err] eqn:Hr; simpl.
  - right. exists undefined_property, [CreateDetector; Detect (trim inputText)].
    simpl. by rewrite <- !app_assoc.
  - destruct (lt (detectedLanguage first) "en") as [name|err] eqn:Hl; simpl.
    + left. exists u, first, rest, name. rewrite <- !app_assoc. done.
    + right. exists err, [CreateDetector; Detect (trim inputText)].
      simpl. by rewrite <- !app_assoc.
  - right. exists err, [CreateDetector; Detect (trim inputText)].
    simpl. by rewrite <- !app_assoc.
Qed.

(** *** Translate: no guard in the handler, one translation at most *)

Lemma handleTranslate_issues snapshot targetLanguage messageId w :
  let issued := advance (handleTranslate snapshot targetLanguage messageId) w in
  inFlight issued.2 = true
  /\ calls issued.1 = calls w ++ [CreateDetector]
  /\ messages (state issued.1)
     = patch messageId (with_loading true) (messages (state w))
  /\ (forall msg, msg ∈ messages (state issued.1) -> id msg = messageId ->
                  translateDisabled msg = true).
Proof.
  simpl. split; [done|]. split; [by rewrite calls_record_called|].
  split; [done|]. intros msg Hin Hid.
  apply patch_elem in Hin as (old & _ & [[_ ->]|[Hne ->]]); done.
Qed.

Lemma handleTranslate_translates_once o w snapshot targetLanguage messageId :
  countCalls isTranslate
    (run o (handleTranslate snapshot targetLanguage messageId) w)
  <= S (countCalls isTranslate w).
Proof.
  destruct (translate_outcome o snapshot targetLanguage messageId)
    as [(err & cs & H)|[(message & H)|(message & src & tr & H & Hne & Ht)]].
  - erewrite countCalls_of_trace; [|by erewrite translate_failure].
    destruct H; simpl; lia.
  - erewrite countCalls_of_trace; [|by erewrite translate_same_language].
    simpl; lia.
  - erewrite countCalls_of_trace; [|by erewrite translate_success].
    simpl; lia.
Qed.

(** *** Translate into the detected language *)

Lemma handleTranslate_same_language o w snapshot targetLanguage messageId
  message :
  Detects o snapshot messageId message targetLanguage ->
  let final := run o (handleTranslate snapshot targetLanguage messageId) w in
  trace final = trace w ++ [Called CreateDetector;
                            Called (Detect (trim (text message)));
                            Shown (Alert same_language)]
  /\ countCalls isTranslationCall final = countCalls isTranslationCall w
  /\ messages (state final)
     = patch messageId (with_loading false) (messages (state w))
  /\ map translations (messages (state final))
     = map translations (messages (state w)).
Proof.
  intros HD final. unfold final.
  split; [by rewrite (translate_same_language _ _ _ _ _ _ HD)|].
  split.
  { erewrite countCalls_of_trace; [|by erewrite translate_same_language].
    simpl; lia. }
  rewrite (translate_same_language _ _ _ _ _ _ HD). simpl.
  split; [done|]. by apply patch_map_same.
Qed.

(** *** The translations of a message only grow *)

Lemma translated_lookup targetLanguage translation msg :
  translations (translated targetLanguage translation msg) !! targetLanguage
  = Some translation
  /\ forall l, l ≠ targetLanguage ->
       translations (translated targetLanguage translation msg) !! l
       = translations msg !! l.
Proof.
  simpl. split; [apply lookup_insert_eq|].
  intros l Hl. by apply lookup_insert_ne.
Qed.

Lemma lastSpread_translations targetLanguage messageId f prev :
  lastSpread targetLanguage f ->
  Forall2
    (fun old new =>
       id new = id old
       /\ (forall l, l ≠ targetLanguage ->
             translations new !! l = translations old !! l)
       /\ (is_Some (translations old !! targetLanguage) ->
           is_Some (translations new !! targetLanguage)))
    prev (patch messageId f prev).
Proof.
  intros Hcases. apply patch_Forall2; [|done].
  intros msg _. destruct Hcases as [->|[->|[t ->]]]; simpl; try done.
  split; [done|]. split.
  - intros l Hl. by apply lookup_insert_ne.
  - intros _. rewrite lookup_insert_eq. eauto.
Qed.

Lemma handleTranslate_translations o w snapshot targetLanguage messageId :
  Forall2
    (fun old new =>
       id new = id old
       /\ (forall l, l ≠ targetLanguage ->
             translations new !! l = translations old !! l)
       /\ (is_Some (translations old !! targetLanguage) ->
           is_Some (translations new !! targetLanguage)))
    (messages (state w))
    (messages (state (run o (handleTranslate snapshot targetLanguage messageId) w))).
Proof.
  destruct (translate_final_patch o w snapshot targetLanguage messageId)
    as (f & -> & Hcases).
  by apply lastSpread_translations.
Qed.

Lemma handleSubmit_keeps_messages lt pc inputText now o w :
  let final := run o (handleSubmit lt pc inputText now) w in
  messages (state final) = messages (state w)
  \/ exists msg, messages (state final) = msg :: messages (state w).
Proof.
  intros final. destruct (truthy (trim inputText)) eqn:Hnb.
  - destruct (handleSubmit_outcome lt pc inputText now o w Hnb)
      as [(u & first & rest & name & _ & _ & _ & H & _)|(err & cs & H & _)].
    + right. eauto.
    + left. unfold final. by rewrite H.
  - left. unfold final, handleSubmit. by rewrite Hnb.
Qed.

End ChatTranslatorFacts.

(** ** Home *)

Module HomeFacts.
Import Home.

Implicit Types (w : World Page.State Call) (o : Oracle Call reply).

Lemma or_else_truthy a b : truthy b = true -> truthy (or_else a b) = true.
Proof. intros H. unfold or_else. by destruct (truthy a) eqn:E. Qed.

(** *** Send *)

Lemma send_outcome inputText now languageDetection o w :
  truthy (trim inputText) = true ->
  let final := run o (handleSend inputText now languageDetection) w in
  Page.loading (state final) = false
  /\ ((exists detectedLang,
         languageDetection = true
         /\ o (DetectLanguage inputText) = Fulfilled detectedLang
         /\ Page.heap (state final)
            = Page.heap (state w)
              ++ [{| id := now; text := inputText;
                     detectedLang := language <$> head detectedLang;
                     summary := None; translation := None;
                     targetLang := None |}]
         /\ Page.messages (state final)
            = Page.messages (state w) ++ [length (Page.heap (state w))]
         /\ Page.inputText (state final) = ""
         /\ Page.error (state final) = "")
      \/ (Page.heap (state final) = Page.heap (state w)
          /\ Page.messages (state final) = Page.messages (state w)
          /\ Page.inputText (state final) = Page.inputText (state w)
          /\ truthy (Page.error (state final)) = true
          /\ (languageDetection = false
              /\ Page.error (state final)
                 = "Language detection service is unavailable."
              \/ exists err,
                  languageDetection = true
                  /\ o (DetectLanguage inputText) = Rejected err
                  /\ Page.error (state final)
                     = or_else (message err) "Failed to detect language"))).
Proof.
  intros Hnb final. unfold final, handleSend. rewrite Hnb. simpl.
  destruct languageDetection; simpl.
  - destruct (o (DetectLanguage inputText)) as [ds|err] eqn:Hr; simpl.
    + split; [done|]. left. exists ds. done.
    + split; [done|]. right. repeat split; [by apply or_else_truthy|].
      right. by exists err.
  - split; [done|]. right. repeat split. by left.
Qed.

Lemma omap_lookup_app (heap : list Message) (x : Message) (refs : list Ref) :
  Forall (fun r => r < length heap) refs ->
  omap (fun r => (heap ++ [x]) !! r) refs = omap (fun r => heap !! r) refs.
Proof.
  induction 1 as [|r refs Hr _ IH]; [done|].
  change (omap (fun r => (heap ++ [x]) !! r) (r :: refs))
    with (match (heap ++ [x]) !! r with
          | Some y => y :: omap (fun r => (heap ++ [x]) !! r) refs
          | None => omap (fun r => (heap ++ [x]) !! r) refs
          end).
  rewrite lookup_app_l, IH by done. done.
Qed.

Lemma rendered_append heap refs inputText targetLang loading error newMessage :
  Forall (fun r => r < length heap) refs ->
  rendered {| Page.heap := heap ++ [newMessage]; Page.inputText := inputText;
              Page.messages := refs ++ [length heap];
              Page.targetLang := targetLang; Page.loading := loading;
              Page.error := error |}
  = omap (fun r => heap !! r) refs ++ [newMessage].
Proof.
  intros Hwf. unfold rendered. simpl. rewrite omap_app, omap_lookup_app by done.
  f_equal. simpl. by rewrite lookup_app_r, Nat.sub_diag by lia.
Qed.

(** *** Summarize and translate: what a found message leads to *)

Lemma summarize_parks_on_its_call snapshot messageId w i r message :
  findIndex (Page.heap (state w)) messageId snapshot = Some (i, r) ->
  Page.heap (state w) !! r = Some message ->
  let issued := advance (handleSummarize snapshot messageId) w in
  inFlight issued.2 = true
  /\ calls issued.1 = calls w ++ [Summarize (text message)]
  /\ buttonsDisabled (state issued.1) = true.
Proof.
  intros Hi Hm. unfold handleSummarize. simpl. rewrite Hi. simpl.
  rewrite Hm. simpl. by rewrite calls_record_called.
Qed.

Lemma summarize_stores snapshot messageId o w i r message s :
  findIndex (Page.heap (state w)) messageId snapshot = Some (i, r) ->
  Page.heap (state w) !! r = Some message ->
  o (Summarize (text message)) = Fulfilled s ->
  let final := run o (handleSummarize snapshot messageId) w in
  trace final = trace w ++ [Called (Summarize (text message))]
  /\ Page.heap (state final) = alter (set_summary s) r (Page.heap (state w))
  /\ Page.heap (state final) !! r = Some (set_summary s message)
  /\ Page.messages (state final) = snapshot
  /\ Page.loading (state final) = false
  /\ Page.error (state final) = "".
Proof.
  intros Hi Hm Hs. unfold handleSummarize. simpl. rewrite Hi. simpl.
  rewrite Hm. simpl. rewrite Hs. simpl. repeat split.
  rewrite list_lookup_alter_eq. by rewrite Hm.
Qed.

Lemma translate_parks_on_its_call snapshot targetLang messageId w i r message :
  findIndex (Page.heap (state w)) messageId snapshot = Some (i, r) ->
  Page.heap (state w) !! r = Some message ->
  let issued := advance (handleTranslate snapshot targetLang messageId) w in
  inFlight issued.2 = true
  /\ calls issued.1
     = calls w ++ [Translate (text message) targetLang (detectedLang message)]
  /\ buttonsDisabled (state issued.1) = true.
Proof.
  intros Hi Hm. unfold handleTranslate. simpl. rewrite Hi. simpl.
  rewrite Hm. simpl. by rewrite calls_record_called.
Qed.

Lemma translate_overwrites snapshot targetLang messageId o w i r message t :
  findIndex (Page.heap (state w)) messageId snapshot = Some (i, r) ->
  Page.heap (state w) !! r = Some message ->
  o (Translate (text message) targetLang (detectedLang message)) = Fulfilled t ->
  let final := run o (handleTranslate snapshot targetLang messageId) w in
  trace final
  = trace w ++ [Called (Translate (text message) targetLang (detectedLang message))]
  /\ Page.heap (state final)
     = alter (set_translation t targetLang) r (Page.heap (state w))
  /\ Page.heap (state final) !! r = Some (set_translation t targetLang message)
  /\ Page.messages (state final) = snapshot
  /\ Page.loading (state final) = false
  /\ Page.error (state final) = "".
Proof.
  intros Hi Hm Hs. unfold handleTranslate. simpl. rewrite Hi. simpl.
  rewrite Hm. simpl. rewrite Hs. simpl. repeat split.
  rewrite list_lookup_alter_eq. by rewrite Hm.
Qed.

(** The Summarize button is rendered for English messages of more than 150
    characters, and for no other. *)
Lemma summarizeShown_iff message :
  summarizeShown message = true
  <-> detectedLang message = Some "en" /\ 150 < String.length (text message).
Proof.
  unfold summarizeShown. rewrite andb_true_iff, bool_decide_eq_true.
  by rewrite Nat.ltb_lt.
Qed.

(** C8, as stated, fails: nothing in [handleSummarize] rejects a French
    message of 500 characters, for which the page renders no Summarize
    button; the summarizer is called and the summary is stored. *)
Lemma C8_counterexample :
  detectedLang HomeScenario.french = Some "fr"
  /\ String.length (text HomeScenario.french) = 500
  /\ summarizeShown HomeScenario.french = false
  /\ calls HomeScenario.french_summarized = [Summarize HomeScenario.long_text]
  /\ summary <$> rendered (state HomeScenario.french_summarized)
     = [Some "Un resume"].
Proof. repeat split. Qed.

(** C8, amended. The guard, [detectedLang] equal to "en" and a text of more
    than 150 characters, is enforced by the rendered page only: the Summarize
    button exists exactly for such messages. [handleSummarize] checks
    neither: for every message it finds in its array it calls the summarizer
    on the text, and when that is fulfilled it stores the summary in the
    message. *)
Theorem C8_summarize_guard_is_in_the_page_only :
  (forall message,
      summarizeShown message = true
      <-> detectedLang message = Some "en"
          /\ 150 < String.length (text message))
  /\ (forall snapshot messageId o w i r message,
      findIndex (Page.heap (state w)) messageId snapshot = Some (i, r) ->
      Page.heap (state w) !! r = Some message ->
      let issued := advance (handleSummarize snapshot messageId) w in
      inFlight issued.2 = true
      /\ calls issued.1 = calls w ++ [Summarize (text message)]
      /\ (forall s,
          o (Summarize (text message)) = Fulfilled s ->
          Page.heap (state (run o (handleSummarize snapshot messageId) w)) !! r
          = Some (set_summary s message))).
Proof.
  split; [apply summarizeShown_iff|].
  intros snapshot messageId o w i r message Hi Hm issued.
  destruct (summarize_parks_on_its_call snapshot messageId w i r message Hi Hm)
    as (Hf & Hc & _).
  split; [done|]. split; [done|]. intros s Hs.
  by destruct (summarize_stores snapshot messageId o w i r message s
                 Hi Hm Hs) as (_ & _ & H & _).
Qed.

(** C8 at work: the French message of 500 characters. *)
Lemma C8_summarize_guard_is_in_the_page_only_witness :
  (findIndex (Page.heap (state HomeScenario.french_page)) "1700000000000" [0]
   = Some (0, 0)
   /\ calls (advance (handleSummarize [0] "1700000000000")
               HomeScenario.french_page).1
      = [Summarize HomeScenario.long_text])
  /\ Page.heap (state HomeScenario.french_summarized) !! 0
     = Some (set_summary "Un resume" HomeScenario.french).
Proof.
  pose (T := proj2 C8_summarize_guard_is_in_the_page_only
               [0] "1700000000000" (HomeScenario.services [] "Un resume" "")
               HomeScenario.french_page 0 0 HomeScenario.french
               eq_refl eq_refl).
  split; [split; [reflexivity|]|].
  - exact (proj1 (proj2 T)).
  - exact (proj2 (proj2 T) "Un resume" eq_refl).
Defined.

End HomeFacts.

(** ** Both pages *)

Module Pipeline.

(** C1, as stated, fails twice. In ChatTranslator a failed detection leaves
    the state as it was and writes to the console only: nothing reaches the
    user. In Home a detection with no element inserts a message whose
    [detectedLang] is undefined. *)
Lemma C1_counterexample :
  (truthy (trim (ChatTranslator.inputText (state Scenario.typed_hello))) = true
   /\ state Scenario.submit_failed = state Scenario.typed_hello
   /\ outputs Scenario.submit_failed
      = [ConsoleError "Detection error:" {| message := "DetectionFailed" |}])
  /\ (truthy (trim (Home.Page.inputText (state HomeScenario.typed_hello))) = true
      /\ Home.rendered (state HomeScenario.sent_undetected)
         = [{| Home.id := "1700000000002"; Home.text := "Hello";
               Home.detectedLang := None; Home.summary := None;
               Home.translation := None; Home.targetLang := None |}]
      /\ Home.Page.error (state HomeScenario.sent_undetected) = "").
Proof. repeat split. Qed.

(** C1, amended. For every non-blank input a submit either inserts exactly
    one new message and empties the input field, or inserts none, never both.
    ChatTranslator puts the message in front, with the display name of the
    first detected tag as [detectedLang]; when the detector cannot be
    created, the detection is rejected or has no element, or the display
    name cannot be formed, the state stays as it was and the error goes to
    the console only (a missing capability is shown by the page instead,
    which the check after mounting turns into the not-supported notice).
    Home appends the message, with the language of the
    first detection as [detectedLang], undefined when the detection has no
    element; when the detection capability is missing or the detection is
    rejected no message is inserted and the page-level error is set to a
    non-empty text. *)
Theorem C1_submit_inserts_one_message_or_none :
  (forall o w translationInSelf createDetectorInTranslation,
      translationInSelf = false \/ createDetectorInTranslation = false ->
      let mounted :=
        run o (ChatTranslator.checkSupport translationInSelf
                 createDetectorInTranslation) w in
      ChatTranslator.notSupportedShown (state mounted) = true
      /\ ChatTranslator.messages (state mounted)
         = ChatTranslator.messages (state w))
  /\ (forall lt pc inputText now o w,
      truthy (trim inputText) = true ->
      let final := run o (ChatTranslator.handleSubmit lt pc inputText now) w in
      (exists u first rest name,
          o ChatTranslator.CreateDetector = Fulfilled u
          /\ o (ChatTranslator.Detect (trim inputText)) = Fulfilled (first :: rest)
          /\ lt (ChatTranslator.detectedLanguage first) "en" = Fulfilled name
          /\ ChatTranslator.messages (state final)
             = ChatTranslator.newMessage now inputText name
                 (pc (ChatTranslator.score first))
               :: ChatTranslator.messages (state w)
          /\ ChatTranslator.inputText (state final) = ""
          /\ trace final
             = trace w ++ [Called ChatTranslator.CreateDetector;
                           Called (ChatTranslator.Detect (trim inputText))])
      \/ (exists err cs,
          state final = state w
          /\ trace final
             = trace w ++ map Called cs
                 ++ [Shown (ConsoleError "Detection error:" err)]))
  /\ (forall inputText now languageDetection o w,
      truthy (trim inputText) = true ->
      let final := run o (Home.handleSend inputText now languageDetection) w in
      Home.Page.loading (state final) = false
      /\ ((exists detectedLang,
             languageDetection = true
             /\ o (Home.DetectLanguage inputText) = Fulfilled detectedLang
             /\ Home.Page.heap (state final)
                = Home.Page.heap (state w)
                  ++ [{| Home.id := now; Home.text := inputText;
                         Home.detectedLang := Home.language <$> head detectedLang;
                         Home.summary := None; Home.translation := None;
                         Home.targetLang := None |}]
             /\ Home.Page.messages (state final)
                = Home.Page.messages (state w)
                  ++ [length (Home.Page.heap (state w))]
             /\ Home.Page.inputText (state final) = ""
             /\ Home.Page.error (state final) = ""
             /\ (Home.wellFormed (state w) ->
                 Home.rendered (state final)
                 = Home.rendered (state w)
                   ++ [{| Home.id := now; Home.text := inputText;
                          Home.detectedLang := Home.language <$> head detectedLang;
                          Home.summary := None; Home.translation := None;
                          Home.targetLang := None |}]))
          \/ (Home.Page.heap (state final) = Home.Page.heap (state w)
              /\ Home.Page.messages (state final) = Home.Page.messages (state w)
              /\ Home.Page.inputText (state final) = Home.Page.inputText (state w)
              /\ truthy (Home.Page.error (state final)) = true
              /\ (languageDetection = false
                  /\ Home.Page.error (state final)
                     = "Language detection service is unavailable."
                  \/ exists err,
                      languageDetection = true
                      /\ o (Home.DetectLanguage inputText) = Rejected err
                      /\ Home.Page.error (state final)
                         = or_else (message err) "Failed to detect language")))).
Proof.
  split.
  { intros o w t c [-> | ->]; [done|]. by destruct t. }
  split; [apply ChatTranslatorFacts.handleSubmit_outcome|].
  intros inputText now languageDetection o w Hnb final.
  destruct (HomeFacts.send_outcome inputText now languageDetection o w Hnb)
    as [Hl [(ds & H1 & H2 & H3 & H4 & H5 & H6)|H]]; fold final in Hl |- *.
  - split; [done|]. left. exists ds. repeat (split; [done|]).
    intros Hwf. fold final in H3, H4.
    destruct (state final) as [hp it ms tl ld er] eqn:E. simpl in *. subst.
    by apply HomeFacts.rendered_append.
  - split; [done|]. by right.
Qed.

(** C1 at work: Hello is sent on the Home page. *)
Lemma C1_submit_inserts_one_message_or_none_witness :
  (truthy (trim "Hello") = true
   /\ Home.Page.loading (state HomeScenario.sent_undetected) = false)
  /\ ChatTranslator.messages (state Scenario.submit_failed)
     = ChatTranslator.messages (state Scenario.typed_hello)
  /\ ChatTranslator.notSupportedShown
       (state (run Scenario.detection_failed
                 (ChatTranslator.checkSupport true false) Scenario.typed_hello))
     = true.
Proof.
  split; [split; [reflexivity|]|split].
  - exact (proj1 (proj2 (proj2 C1_submit_inserts_one_message_or_none)
                    "Hello" "1700000000002" true
                    (HomeScenario.services [] "" "") HomeScenario.typed_hello
                    eq_refl)).
  - destruct (proj1 (proj2 C1_submit_inserts_one_message_or_none)
                Scenario.displayName Scenario.percent "Hello" 1700000000000%Z
                Scenario.detection_failed Scenario.typed_hello eq_refl)
      as [(u & first & rest & name & _ & Hd & _)|(err & cs & H & _)].
    + discriminate Hd.
    + exact (f_equal ChatTranslator.messages H).
  - exact (proj1 (proj1 C1_submit_inserts_one_message_or_none
                    Scenario.detection_failed Scenario.typed_hello true false
                    (or_intror eq_refl))).
Defined.

(** C3, as stated, fails: Translate is invoked for a message and invoked
    again while the first is in flight, with the message already marked as
    loading; both run to their end and two translations are requested. *)
Lemma C3_counterexample :
  inFlight Scenario.first_click.2 = true
  /\ ChatTranslator.loading <$> ChatTranslator.messages (state Scenario.first_click.1)
     = [Some true]
  /\ calls Scenario.both_finished
     = [ChatTranslator.CreateDetector; ChatTranslator.CreateDetector;
        ChatTranslator.Detect "Hello world";
        ChatTranslator.CreateTranslator "en" "fr";
        ChatTranslator.Translate "Hello world";
        ChatTranslator.Detect "Hello world";
        ChatTranslator.CreateTranslator "en" "fr";
        ChatTranslator.Translate "Hello world"]
  /\ countCalls ChatTranslator.isTranslate Scenario.both_finished = 2
  /\ countCalls ChatTranslator.isTranslate Scenario.both_finished <> 1.
Proof. repeat split. discriminate. Qed.

(** C3, amended. [handleTranslate] has no in-flight guard of its own: every
    invocation, whatever the state, marks the message as loading, issues its
    first call and is in flight. Duplicates are kept away by the rendered
    page only: in ChatTranslator the Translate button of a message is
    disabled while its [loading] is true, which the handler sets before its
    first call; in Home every button is disabled while the page-level
    [loading] is true, which the handler sets before its call. One
    invocation requests at most one translation. *)
Theorem C3_translate_is_guarded_by_the_page_only :
  (forall snapshot targetLanguage messageId w,
      let issued :=
        advance (ChatTranslator.handleTranslate snapshot targetLanguage messageId) w in
      inFlight issued.2 = true
      /\ calls issued.1 = calls w ++ [ChatTranslator.CreateDetector]
      /\ ChatTranslator.messages (state issued.1)
         = ChatTranslator.patch messageId (ChatTranslator.with_loading true)
             (ChatTranslator.messages (state w))
      /\ (forall msg, msg ∈ ChatTranslator.messages (state issued.1) ->
                      ChatTranslator.id msg = messageId ->
                      ChatTranslator.translateDisabled msg = true))
  /\ (forall o w snapshot targetLanguage messageId,
      countCalls ChatTranslator.isTranslate
        (run o (ChatTranslator.handleTranslate snapshot targetLanguage messageId) w)
      <= S (countCalls ChatTranslator.isTranslate w))
  /\ (forall snapshot targetLang messageId w i r message,
      Home.findIndex (Home.Page.heap (state w)) messageId snapshot = Some (i, r) ->
      Home.Page.heap (state w) !! r = Some message ->
      let issued := advance (Home.handleTranslate snapshot targetLang messageId) w in
      inFlight issued.2 = true
      /\ calls issued.1
         = calls w ++ [Home.Translate (Home.text message) targetLang
                         (Home.detectedLang message)]
      /\ Home.buttonsDisabled (state issued.1) = true).
Proof.
  split; [apply ChatTranslatorFacts.handleTranslate_issues|].
  split; [apply ChatTranslatorFacts.handleTranslate_translates_once|].
  apply HomeFacts.translate_parks_on_its_call.
Qed.

(** C3 at work: a translate of [hello] on the Home page. *)
Lemma C3_translate_is_guarded_by_the_page_only_witness :
  (Home.findIndex (Home.Page.heap (state HomeScenario.hello_page))
     "1700000000001" [0] = Some (0, 0)
   /\ Home.buttonsDisabled
        (state (advance (Home.handleTranslate [0] "es" "1700000000001")
                  HomeScenario.hello_page).1) = true)
  /\ ChatTranslator.translateDisabled
       (ChatTranslator.with_loading true Scenario.hello) = true.
Proof.
  split; [split; [reflexivity|]|].
  - exact (proj2 (proj2 (proj2 (proj2 C3_translate_is_guarded_by_the_page_only)
                           [0] "es" "1700000000001" HomeScenario.hello_page
                           0 0 HomeScenario.hello eq_refl eq_refl))).
  - exact (proj2 (proj2 (proj2 (proj1 C3_translate_is_guarded_by_the_page_only
                                  [Scenario.hello] "fr" 1%Z Scenario.hello_fr)))
             (ChatTranslator.with_loading true Scenario.hello)
             (list_elem_of_here _ _) eq_refl).
Defined.

(** C4, as stated, fails. In ChatTranslator the language is only known after
    two service calls, creating a detector and detecting, which are issued
    before the comparison. In Home nothing compares the languages and the
    translation is requested from English into English. *)
Lemma C4_counterexample :
  (calls Scenario.hello_en_translated
   = [ChatTranslator.CreateDetector; ChatTranslator.Detect "Hello world"]
   /\ calls Scenario.hello_en_translated <> [])
  /\ (Home.detectedLang HomeScenario.hello = Some "en"
      /\ calls HomeScenario.hello_en_translated
         = [Home.Translate "Hello world" "en" (Some "en")]).
Proof. repeat split. discriminate. Qed.

(** C4, amended. In ChatTranslator, when the language detected afresh for
    the message equals the selected target language, the handler issues the
    two detection calls and nothing else: it shows the same-language notice,
    creates no translator and requests no translation, turns [loading] off
    on the message and leaves every [translations] map unchanged. Home has
    no such check: the translation is requested also when the stored
    detected language equals the target language. *)
Theorem C4_same_language_requests_no_translation :
  (forall o w snapshot targetLanguage messageId message,
      ChatTranslator.Detects o snapshot messageId message targetLanguage ->
      let final :=
        run o (ChatTranslator.handleTranslate snapshot targetLanguage messageId) w in
      trace final
      = trace w ++ [Called ChatTranslator.CreateDetector;
                    Called (ChatTranslator.Detect (trim (ChatTranslator.text message)));
                    Shown (Alert ChatTranslator.same_language)]
      /\ countCalls ChatTranslator.isTranslationCall final
         = countCalls ChatTranslator.isTranslationCall w
      /\ ChatTranslator.messages (state final)
         = ChatTranslator.patch messageId (ChatTranslator.with_loading false)
             (ChatTranslator.messages (state w))
      /\ map ChatTranslator.translations (ChatTranslator.messages (state final))
         = map ChatTranslator.translations (ChatTranslator.messages (state w)))
  /\ (forall snapshot targetLang messageId w i r message,
      Home.findIndex (Home.Page.heap (state w)) messageId snapshot = Some (i, r) ->
      Home.Page.heap (state w) !! r = Some message ->
      Home.detectedLang message = Some targetLang ->
      calls (advance (Home.handleTranslate snapshot targetLang messageId) w).1
      = calls w ++ [Home.Translate (Home.text message) targetLang
                      (Some targetLang)]).
Proof.
  split; [apply ChatTranslatorFacts.handleTranslate_same_language|].
  intros snapshot targetLang messageId w i r message Hi Hm Hl.
  destruct (HomeFacts.translate_parks_on_its_call snapshot targetLang messageId
              w i r message Hi Hm) as (_ & H & _).
  by rewrite <- Hl.
Qed.

(** C4 at work: [hello], detected as English, with English selected. *)
Lemma C4_same_language_requests_no_translation_witness :
  (ChatTranslator.Detects (Scenario.services "en" (Fulfilled "Hello world"))
     [Scenario.hello] 1 Scenario.hello "en"
   /\ trace Scenario.hello_en_translated
      = [Called ChatTranslator.CreateDetector;
         Called (ChatTranslator.Detect "Hello world");
         Shown (Alert ChatTranslator.same_language)])
  /\ calls (advance (Home.handleTranslate [0] "en" "1700000000001")
              HomeScenario.hello_en).1
     = [Home.Translate "Hello world" "en" (Some "en")].
Proof.
  assert (H : ChatTranslator.Detects
                (Scenario.services "en" (Fulfilled "Hello world"))
                [Scenario.hello] 1 Scenario.hello "en").
  { split; [reflexivity|]. split; [by exists tt|].
    eexists _, _. split; reflexivity. }
  split; [split; [exact H|]|].
  - exact (proj1 (proj1 C4_same_language_requests_no_translation
                    (Scenario.services "en" (Fulfilled "Hello world"))
                    Scenario.hello_en [Scenario.hello] "en" 1%Z Scenario.hello H)).
  - exact (proj2 C4_same_language_requests_no_translation
             [0] "en" "1700000000001" HomeScenario.hello_en 0 0
             HomeScenario.hello eq_refl eq_refl eq_refl).
Defined.

(** C6, as stated, fails in Home: a message holds one [translation] with its
    [targetLang]; translated into Spanish and then into French, it holds the
    French text only. *)
Lemma C6_counterexample :
  Home.rendered (state HomeScenario.hello_es)
  = [Home.set_translation "Hola mundo" "es" HomeScenario.hello]
  /\ Home.rendered (state HomeScenario.hello_es_fr)
     = [Home.set_translation "Bonjour le monde" "fr" HomeScenario.hello]
  /\ Home.translation <$> Home.rendered (state HomeScenario.hello_es_fr)
     <> [Some "Hola mundo"].
Proof. repeat split. discriminate. Qed.

(** C6, amended. In ChatTranslator the [translations] map of a message only
    grows: a successful translate into [targetLanguage] stores the
    translation under that key and keeps the entry of every other key; a
    translate that ends otherwise keeps every entry, and so does a translate
    in flight on the store it finds when it ends; a submit keeps the
    messages there are, and a delete removes whole messages and keeps the
    others; so only the clear removes entries of a message that stays. In
    Home a message has one translation slot: a successful translate
    overwrites [translation] and [targetLang], whatever they held. *)
Theorem C6_translations_grow_in_ChatTranslator :
  (forall o w snapshot targetLanguage messageId,
      let final :=
        run o (ChatTranslator.handleTranslate snapshot targetLanguage messageId) w in
      (forall message sourceLang translation,
          ChatTranslator.Detects o snapshot messageId message sourceLang ->
          sourceLang ≠ targetLanguage ->
          ChatTranslator.Translates o message sourceLang targetLanguage
            translation ->
          ChatTranslator.messages (state final)
          = ChatTranslator.patch messageId
              (ChatTranslator.translated targetLanguage translation)
              (ChatTranslator.messages (state w)))
      /\ Forall2
           (fun old new =>
              ChatTranslator.id new = ChatTranslator.id old
              /\ (forall l, l ≠ targetLanguage ->
                    ChatTranslator.translations new !! l
                    = ChatTranslator.translations old !! l)
              /\ (is_Some (ChatTranslator.translations old !! targetLanguage) ->
                  is_Some (ChatTranslator.translations new !! targetLanguage)))
           (ChatTranslator.messages (state w))
           (ChatTranslator.messages (state final))
      /\ (forall n o1 w',
          let parked :=
            (ChatTranslator.settle n o1
               (advance
                  (ChatTranslator.handleTranslate snapshot targetLanguage messageId)
                  w)).2 in
          inFlight parked = true ->
          Forall2
            (fun old new =>
               ChatTranslator.id new = ChatTranslator.id old
               /\ (forall l, l ≠ targetLanguage ->
                     ChatTranslator.translations new !! l
                     = ChatTranslator.translations old !! l)
               /\ (is_Some (ChatTranslator.translations old !! targetLanguage) ->
                   is_Some (ChatTranslator.translations new !! targetLanguage)))
            (ChatTranslator.messages (state w'))
            (ChatTranslator.messages (state (finish o parked w')))))
  /\ (forall targetLanguage translation msg,
      ChatTranslator.translations
        (ChatTranslator.translated targetLanguage translation msg)
        !! targetLanguage = Some translation
      /\ forall l, l ≠ targetLanguage ->
           ChatTranslator.translations
             (ChatTranslator.translated targetLanguage translation msg) !! l
           = ChatTranslator.translations msg !! l)
  /\ (forall lt pc inputText now o w,
      let final := run o (ChatTranslator.handleSubmit lt pc inputText now) w in
      ChatTranslator.messages (state final) = ChatTranslator.messages (state w)
      \/ exists msg,
          ChatTranslator.messages (state final)
          = msg :: ChatTranslator.messages (state w))
  /\ (forall o w messageId,
      ChatTranslator.messages
        (state (run o (ChatTranslator.handleDeleteMessage messageId) w))
      = filter (fun msg => ChatTranslator.id msg ≠ messageId)
          (ChatTranslator.messages (state w)))
  /\ (forall snapshot targetLang messageId o w i r message t,
      Home.findIndex (Home.Page.heap (state w)) messageId snapshot = Some (i, r) ->
      Home.Page.heap (state w) !! r = Some message ->
      o (Home.Translate (Home.text message) targetLang (Home.detectedLang message))
      = Fulfilled t ->
      exists message',
        Home.Page.heap
          (state (run o (Home.handleTranslate snapshot targetLang messageId) w))
          !! r = Some message'
        /\ Home.translation message' = Some t
        /\ Home.targetLang message' = Some targetLang
        /\ Home.id message' = Home.id message
        /\ Home.text message' = Home.text message
        /\ Home.detectedLang message' = Home.detectedLang message
        /\ Home.summary message' = Home.summary message).
Proof.
  split; [|split; [|split; [|split]]].
  - intros o w snapshot targetLanguage messageId final. split; [|split].
    + intros message sourceLang translation HD Hne HT. unfold final.
      by rewrite (ChatTranslatorFacts.translate_success _ _ _ _ _ _ _ _ HD Hne HT).
    + apply ChatTranslatorFacts.handleTranslate_translations.
    + intros n o1 w' parked Hfl.
      destruct (ChatTranslatorFacts.translate_in_flight_ends_with_patch
                  snapshot targetLanguage messageId n o1 o w w' Hfl)
        as (f & Hcases & Hf).
      fold parked in Hf. rewrite Hf.
      by apply ChatTranslatorFacts.lastSpread_translations.
  - apply ChatTranslatorFacts.translated_lookup.
  - apply ChatTranslatorFacts.handleSubmit_keeps_messages.
  - done.
  - intros snapshot targetLang messageId o w i r message t Hi Hm Ht.
    destruct (HomeFacts.translate_overwrites snapshot targetLang messageId
                o w i r message t Hi Hm Ht) as (_ & _ & H & _).
    exists (Home.set_translation t targetLang message). by rewrite H.
Qed.

(** C6 at work: [hello] with its Spanish and French translations gets a
    Turkish one. *)
Lemma C6_translations_grow_in_ChatTranslator_witness :
  (ChatTranslator.Detects (Scenario.services "en" (Fulfilled "Merhaba"))
     [Scenario.hello_es_fr] 1 Scenario.hello_es_fr "en"
   /\ ChatTranslator.messages
        (state (run (Scenario.services "en" (Fulfilled "Merhaba"))
                  (ChatTranslator.handleTranslate [Scenario.hello_es_fr] "tr" 1)
                  Scenario.hello_tr))
      = [ChatTranslator.translated "tr" "Merhaba" Scenario.hello_es_fr])
  /\ length (ChatTranslator.messages (state Scenario.two_messages))
     = length
         (ChatTranslator.messages
            (state
               (finish (Scenario.services "en" (Fulfilled "Merhaba"))
                  (ChatTranslator.settle 1
                     (Scenario.services "en" (Fulfilled "Merhaba"))
                     (advance
                        (ChatTranslator.handleTranslate [Scenario.hello_es_fr]
                           "tr" 1)
                        Scenario.hello_tr)).2
                  Scenario.two_messages)))
  /\ exists message',
       Home.Page.heap (state HomeScenario.hello_es_fr) !! 0 = Some message'
       /\ Home.translation message' = Some "Bonjour le monde"
       /\ Home.targetLang message' = Some "fr"
       /\ Home.id message' = "1700000000001"
       /\ Home.text message' = "Hello world"
       /\ Home.detectedLang message' = Some "en"
       /\ Home.summary message' = None.
Proof.
  assert (H : ChatTranslator.Detects
                (Scenario.services "en" (Fulfilled "Merhaba"))
                [Scenario.hello_es_fr] 1 Scenario.hello_es_fr "en").
  { split; [reflexivity|]. split; [by exists tt|].
    eexists _, _. split; reflexivity. }
  split; [split; [exact H|]|split].
  - refine (proj1 (proj1 C6_translations_grow_in_ChatTranslator
                     (Scenario.services "en" (Fulfilled "Merhaba"))
                     Scenario.hello_tr [Scenario.hello_es_fr] "tr" 1%Z)
              Scenario.hello_es_fr "en" "Merhaba" H _ _).
    + discriminate.
    + split; [by exists tt|reflexivity].
  - exact (Forall2_length _ _ _
             (proj2 (proj2 (proj1 C6_translations_grow_in_ChatTranslator
                              (Scenario.services "en" (Fulfilled "Merhaba"))
                              Scenario.hello_tr [Scenario.hello_es_fr] "tr" 1%Z))
                1 (Scenario.services "en" (Fulfilled "Merhaba"))
                Scenario.two_messages eq_refl)).
  - exact (proj2 (proj2 (proj2 (proj2 C6_translations_grow_in_ChatTranslator)))
             (Home.Page.messages (state HomeScenario.hello_es)) "fr"
             "1700000000001" (HomeScenario.services [] "" "Bonjour le monde")
             HomeScenario.hello_es 0 0
             (Home.set_translation "Hola mundo" "es" HomeScenario.hello)
             "Bonjour le monde" eq_refl eq_refl eq_refl).
Defined.

End Pipeline.

(** * Further properties of the handlers *)

(** ** Handlers and the relations they keep *)

Section StepsFacts.
Context {St Call : Type} {reply : Call -> Type}.

Implicit Types (R : St -> St -> Prop).

Lemma steps_bind R {A B} (p : Proc St Call reply A)
  (f : A -> Proc St Call reply B) :
  steps R p -> (forall a, steps R (f a)) -> steps R (bind p f).
Proof.
  intros Hp Hf.
  induction p as [a|err|g k IH|k IH|out k IH|c k IH]; simpl in *; intuition.
Qed.

Lemma steps_tryCatch R {A} (p : Proc St Call reply A)
  (h : Thrown -> Proc St Call reply A) :
  steps R p -> (forall err, steps R (h err)) -> steps R (tryCatch p h).
Proof.
  intros Hp Hh.
  induction p as [a|err|g k IH|k IH|out k IH|c k IH]; simpl in *; intuition.
Qed.

Lemma steps_tryFinally R {A} (p : Proc St Call reply A)
  (fin : Proc St Call reply unit) :
  steps R p -> steps R fin -> steps R (tryFinally p fin).
Proof.
  intros Hp Hf.
  induction p as [a|err|g k IH|k IH|out k IH|c k IH]; simpl in *;
    try (apply steps_bind; [done|by intros []]); intuition.
Qed.

Lemma steps_await R (c : Call) :
  steps R (await (St := St) (reply := reply) c).
Proof. intros [v|err]; exact I. Qed.

Lemma steps_defined R {A} (x : option A) :
  steps R (defined (St := St) (Call := Call) (reply := reply) x).
Proof. destruct x; exact I. Qed.

Lemma steps_setState R (f : St -> St) :
  (forall s, R s (f s)) ->
  steps R (setState (Call := Call) (reply := reply) f).
Proof. intros H. by split. Qed.

(** A handler that only takes [R]-steps is [R]-related to where it started,
    for a reflexive and transitive [R]: run to its end, or up to its next
    call, or from a call to its end. *)
Lemma steps_run R `{!Reflexive R, !Transitive R} {A} (o : Oracle Call reply)
  (p : Proc St Call reply A) (w : World St Call) :
  steps R p -> R (state w) (state (run o p w)).
Proof.
  revert w. induction p as [a|err|f k IH|k IH|out k IH|c k IH];
    intros w Hp; simpl in *; try done.
  - destruct Hp as [Hf Hk]. etransitivity; [apply (Hf (state w))|].
    apply (IH (update f w) Hk).
  - by apply IH.
  - by apply (IH (record (Shown out) w)).
  - by apply (IH (o c) (record (Called c) w)).
Qed.

Lemma steps_advance R `{!Reflexive R, !Transitive R} {A}
  (p : Proc St Call reply A) (w : World St Call) :
  steps R p ->
  steps R (advance p w).2 /\ R (state w) (state (advance p w).1).
Proof.
  revert w. induction p as [a|err|f k IH|k IH|out k IH|c k IH];
    intros w Hp; simpl in *; try done.
  - destruct Hp as [Hf Hk]. destruct (IH (update f w) Hk) as [H1 H2].
    split; [done|]. etransitivity; [apply (Hf (state w))|done].
  - by apply IH.
  - by apply (IH (record (Shown out) w)).
Qed.

Lemma steps_resume R `{!Reflexive R, !Transitive R} {A} (o : Oracle Call reply)
  (p : Proc St Call reply A) (w : World St Call) :
  steps R p ->
  steps R (resume o p w).2 /\ R (state w) (state (resume o p w).1).
Proof.
  destruct p; simpl; try done. intros Hp. by apply steps_advance.
Qed.

Lemma steps_finish R `{!Reflexive R, !Transitive R} {A} (o : Oracle Call reply)
  (p : Proc St Call reply A) (w : World St Call) :
  steps R p -> R (state w) (state (finish o p w)).
Proof.
  destruct p; simpl; try done. intros Hp. by apply steps_run.
Qed.

End StepsFacts.

(** ** Blank input *)

Module JsFacts.

Lemma trimStart_blank (s : string) :
  trimStart s = EmptyString
  <-> forallb isWhiteSpace (list_ascii_of_string s) = true.
Proof.
  induction s as [|c s IH]; simpl; [done|].
  destruct (isWhiteSpace c); simpl; [done|]. split; discriminate.
Qed.

Lemma trimStart_head (s : string) :
  trimStart s = EmptyString
  \/ exists c s', trimStart s = String c s' /\ isWhiteSpace c = false.
Proof.
  induction s as [|c s IH]; simpl; [by left|].
  destruct (isWhiteSpace c) eqn:E; [done|]. right. by exists c, s.
Qed.

Lemma trimEnd_head (c : ascii) (s : string) :
  isWhiteSpace c = false -> trimEnd (String c s) <> EmptyString.
Proof. intros E. simpl. rewrite E. by destruct (trimEnd s). Qed.

(** The input is blank, [!inputText.trim()], exactly when all its characters
    are white space. *)
Lemma blank_iff (s : string) :
  truthy (trim s) = false
  <-> forallb isWhiteSpace (list_ascii_of_string s) = true.
Proof.
  rewrite <- trimStart_blank. unfold trim.
  destruct (trimStart_head s) as [->|(c & s' & -> & Hc)]; [done|].
  pose proof (trimEnd_head c s' Hc) as H.
  destruct (trimEnd (String c s')); simpl; [done|]. split; discriminate.
Qed.

End JsFacts.

(** ** More on ChatTranslator *)

Module ChatTranslatorMore.
Import ChatTranslator ChatTranslatorPage.

Implicit Types (w : World State Call) (o : Oracle Call reply).
Implicit Types (msg : Message) (prev : list Message) (messageId : Z).

(** *** Blank input *)

(** X1. A submit of an input that is empty or all white space does nothing
    at all: no call is issued, nothing is shown or logged, and the state,
    input field included, is as it was. *)
Theorem X1_blank_submit_does_nothing :
  forall lt pc inputText now o w,
    forallb isWhiteSpace (list_ascii_of_string inputText) = true ->
    run o (handleSubmit lt pc inputText now) w = w
    /\ inFlight (advance (handleSubmit lt pc inputText now) w).2 = false
    /\ (advance (handleSubmit lt pc inputText now) w).1 = w.
Proof.
  intros lt pc inputText now o w Hb. apply JsFacts.blank_iff in Hb.
  unfold handleSubmit. by rewrite Hb.
Qed.

(** X1 at work: two spaces and a line feed are submitted. *)
Lemma X1_blank_submit_does_nothing_witness :
  run Scenario.detection_failed
    (handleSubmit Scenario.displayName Scenario.percent
       (String " " (String " " (String (ascii_of_nat 10) EmptyString)))
       1700000000000)
    Scenario.typed_hello
  = Scenario.typed_hello.
Proof.
  exact (proj1 (X1_blank_submit_does_nothing
                  Scenario.displayName Scenario.percent
                  (String " " (String " " (String (ascii_of_nat 10) EmptyString)))
                  1700000000000 Scenario.detection_failed
                  Scenario.typed_hello eq_refl)).
Defined.

(** *** Delete *)

Lemma delete_length_unique messageId prev :
  NoDup (map id prev) -> messageId ∈ map id prev ->
  S (length (filter (fun msg => id msg ≠ messageId) prev)) = length prev.
Proof.
  induction prev as [|m prev IH]; simpl; [by intros _ ?%elem_of_nil|].
  intros [Hm Hnd]%NoDup_cons Hin. rewrite filter_cons.
  destruct (decide (id m ≠ messageId)) as [Hne|Heq].
  - simpl. f_equal. apply IH; [done|].
    apply elem_of_cons in Hin as [E|E]; [by subst|done].
  - assert (E : id m = messageId) by (by destruct (decide (id m = messageId))).
    f_equal. subst messageId.
    replace (filter (fun msg => id msg ≠ id m) prev) with prev; [done|].
    clear IH Hnd Hin Heq. induction prev as [|x prev IH]; [done|].
    rewrite filter_cons, decide_True.
    + f_equal. apply IH. intros H. apply Hm. by right.
    + intros E. apply Hm. rewrite <- E. left.
Qed.

Lemma delete_twice messageId prev :
  filter (fun msg => id msg ≠ messageId)
    (filter (fun msg => id msg ≠ messageId) prev)
  = filter (fun msg => id msg ≠ messageId) prev.
Proof.
  induction prev as [|m prev IH]; [done|].
  rewrite filter_cons. case_decide; [|done].
  rewrite filter_cons, decide_True by done. by rewrite IH.
Qed.

Lemma delete_absent_same messageId prev :
  (forall msg, msg ∈ prev -> id msg ≠ messageId) ->
  filter (fun msg => id msg ≠ messageId) prev = prev.
Proof.
  induction prev as [|m prev IH]; intros H; [done|].
  rewrite filter_cons, decide_True by (apply H; left).
  f_equal. apply IH. intros msg Hin. apply H. by right.
Qed.

(** X3. A delete issues no call. It removes every message of the id and
    keeps the others, in their order; a second delete of the id changes
    nothing more, and a delete of an id that is not in the store changes
    nothing. When the ids of the store are distinct and the id is among
    them, exactly one message goes. *)
Theorem X3_delete_removes_the_messages_of_the_id :
  forall o w messageId,
    let final := run o (handleDeleteMessage messageId) w in
    trace final = trace w
    /\ (forall msg, msg ∈ messages (state final)
                    <-> msg ∈ messages (state w) /\ id msg ≠ messageId)
    /\ messages (state final) `sublist_of` messages (state w)
    /\ state (run o (handleDeleteMessage messageId) final) = state final
    /\ (absent messageId (state w) -> state final = state w)
    /\ (NoDup (ids (state w)) -> messageId ∈ ids (state w) ->
        S (length (messages (state final))) = length (messages (state w))).
Proof.
  intros o w messageId final. split; [done|]. split; [|split; [|split; [|split]]].
  - intros msg. simpl. rewrite list_elem_of_filter. tauto.
  - apply sublist_filter.
  - simpl. unfold with_messages. simpl. f_equal. apply delete_twice.
  - intros Ha. destruct w as [[i ms t s] tr]. simpl in *.
    unfold with_messages. simpl. f_equal. by apply delete_absent_same.
  - apply delete_length_unique.
Qed.

(** X3 at work: [hello] is deleted from a store of two messages. *)
Lemma X3_delete_removes_the_messages_of_the_id_witness :
  S (length (messages
               (state (run Scenario.detection_failed (handleDeleteMessage 1)
                         Scenario.two_messages))))
  = 2.
Proof.
  refine (proj2 (proj2 (proj2 (proj2 (proj2
            (X3_delete_removes_the_messages_of_the_id
               Scenario.detection_failed Scenario.two_messages 1))))) _ _).
  - exact (bool_decide_unpack (NoDup (ids (state Scenario.two_messages))) I).
  - exact (bool_decide_unpack
             ((1 : Z) ∈ ids (state Scenario.two_messages)) I).
Defined.

(** *** The relations the handlers keep *)

Lemma steps_settle (R : State -> State -> Prop) n o
  (wp : World State Call * Handler) :
  Reflexive R -> Transitive R ->
  steps R wp.2 -> steps R (settle n o wp).2.
Proof.
  intros HR HT H. induction n as [|n IH]; simpl; [done|].
  by apply steps_resume.
Qed.

(** [handleTranslate] writes through [patch messageId] only, with the
    object spreads of the source. *)
Lemma handleTranslate_steps (R : State -> State -> Prop)
  snapshot targetLanguage messageId :
  (forall b st,
      R st (with_messages (patch messageId (with_loading b) (messages st)) st)) ->
  (forall st, R st (with_messages (patch messageId failed (messages st)) st)) ->
  (forall t st,
      R st (with_messages
              (patch messageId (translated targetLanguage t) (messages st)) st)) ->
  steps R (handleTranslate snapshot targetLanguage messageId).
Proof.
  intros Hl Hf Ht. unfold handleTranslate.
  apply steps_bind; [by apply steps_setState|]. intros _.
  apply steps_tryCatch.
  - apply steps_bind; [apply steps_await|]. intros _.
    apply steps_bind; [apply steps_defined|]. intros message.
    apply steps_bind; [apply steps_await|]. intros detectionResult.
    apply steps_bind; [apply steps_defined|]. intros first.
    case_decide.
    + apply steps_bind; [exact I|]. intros _. by apply steps_setState.
    + apply steps_bind; [apply steps_await|]. intros _.
      apply steps_bind; [apply steps_await|]. intros translation.
      by apply steps_setState.
  - intros err. apply steps_bind; [exact I|]. intros _.
    by apply steps_setState.
Qed.

(** [handleSubmit] puts one message in front and empties the input. *)
Lemma handleSubmit_steps (R : State -> State -> Prop) lt pc inputText now :
  (forall name c st,
      R st (with_messages (newMessage now inputText name c :: messages st) st)) ->
  (forall st, R st {| ChatTranslator.inputText := "";
                      messages := messages st;
                      targetLanguage := targetLanguage st;
                      isSupported := isSupported st |}) ->
  steps R (handleSubmit lt pc inputText now).
Proof.
  intros Hm Hi. unfold handleSubmit.
  destruct (negb (truthy (trim inputText))); [exact I|].
  apply steps_tryCatch; [|by intros err].
  apply steps_bind; [apply steps_await|]. intros _.
  apply steps_bind; [apply steps_await|]. intros detectionResult.
  apply steps_bind; [apply steps_defined|]. intros first.
  apply steps_bind; [by destruct (lt _ _)|]. intros name.
  apply steps_bind; [by apply steps_setState|]. intros _.
  by apply steps_setState.
Qed.

(** A translate in flight, at any stage, ending on any store. *)
Lemma translate_in_flight_steps (R : State -> State -> Prop)
  snapshot targetLanguage messageId n o1 o2 w w' :
  Reflexive R -> Transitive R ->
  steps R (handleTranslate snapshot targetLanguage messageId) ->
  R (state w')
    (state (finish o2
              (settle n o1
                 (advance (handleTranslate snapshot targetLanguage messageId) w)).2
              w')).
Proof.
  intros HR HT H. apply steps_finish; [done|done|].
  apply steps_settle; [done|done|]. by apply steps_advance.
Qed.

#[local] Instance onlyTouches_reflexive messageId :
  Reflexive (onlyTouches messageId).
Proof.
  intros st. repeat split. apply Forall_Forall2_diag, Forall_forall.
  by intros msg _.
Qed.

#[local] Instance onlyTouches_transitive messageId :
  Transitive (onlyTouches messageId).
Proof.
  intros s1 s2 s3 (H1 & H2 & H3 & H4) (G1 & G2 & G3 & G4).
  split; [congruence|]. split; [congruence|]. split; [congruence|].
  revert G4. generalize (messages s3). induction H4 as [|x y l k Hxy _ IH];
    intros l3 G; inversion G as [|y' z k' l3' Hyz G']; subst; constructor.
  - destruct Hxy as (A1 & A2 & A3 & A4 & A5).
    destruct Hyz as (B1 & B2 & B3 & B4 & B5).
    repeat split; try congruence.
    intros Hne. rewrite B5 by congruence. by apply A5.
  - by apply IH.
Qed.

Lemma patch_onlyTouches messageId f st :
  (forall msg, id (f msg) = id msg /\ text (f msg) = text msg
               /\ detectedLang (f msg) = detectedLang msg
               /\ confidence (f msg) = confidence msg) ->
  onlyTouches messageId st
    (with_messages (patch messageId f (messages st)) st).
Proof.
  intros Hf. repeat split. simpl.
  apply ChatTranslatorFacts.patch_Forall2.
  - intros msg Hid. destruct (Hf msg) as (?&?&?&?). by repeat split.
  - by intros msg _.
Qed.

Lemma handleTranslate_onlyTouches snapshot targetLanguage messageId :
  steps (onlyTouches messageId)
    (handleTranslate snapshot targetLanguage messageId).
Proof.
  apply handleTranslate_steps; intros; by apply patch_onlyTouches.
Qed.

(** X5. A translate of [messageId], run to its end or in flight at any stage
    and ending on whatever store it finds, changes nothing but the
    [translations], [showTranslation], [loading] and [error] of the messages
    with that id: the input field, the selected language and the support flag
    are as they were, the messages are as many and in the same order, each
    with its [id], [text], [detectedLang] and [confidence], and the messages
    of other ids are untouched. *)
Theorem X5_translate_touches_its_message_only :
  forall snapshot targetLanguage messageId o w,
    onlyTouches messageId (state w)
      (state (run o (handleTranslate snapshot targetLanguage messageId) w))
    /\ (forall n o1 w',
        onlyTouches messageId (state w')
          (state (finish o
                    (settle n o1
                       (advance
                          (handleTranslate snapshot targetLanguage messageId)
                          w)).2
                    w'))).
Proof.
  intros snapshot targetLanguage messageId o w. split.
  - apply steps_run; [apply _|apply _|apply handleTranslate_onlyTouches].
  - intros n o1 w'.
    apply translate_in_flight_steps;
      [apply _|apply _|apply handleTranslate_onlyTouches].
Qed.

(** *** The ids of the store *)

Lemma patch_ids messageId f prev :
  (forall msg, id (f msg) = id msg) ->
  map id (patch messageId f prev) = map id prev.
Proof. intros H. by apply ChatTranslatorFacts.patch_map_same. Qed.

Lemma handleTranslate_keeps_ids snapshot targetLanguage messageId :
  steps (fun st st' => ids st' = ids st)
    (handleTranslate snapshot targetLanguage messageId).
Proof.
  apply handleTranslate_steps; intros; unfold ids; simpl; by apply patch_ids.
Qed.

(** X4. The ids of the store stay distinct. A submit keeps them distinct
    when its time stamp is not the id of a message of the store; a delete
    keeps them distinct; a clear and a translate, also one in flight that
    ends on this store, leave the list of ids as it is. *)
Theorem X4_ids_stay_distinct :
  forall w,
    NoDup (ids (state w)) ->
    (forall lt pc inputText now o,
        now ∉ ids (state w) ->
        NoDup (ids (state (run o (handleSubmit lt pc inputText now) w))))
    /\ (forall o messageId,
        NoDup (ids (state (run o (handleDeleteMessage messageId) w))))
    /\ (forall o messageId,
        ids (state (run o (handleClearTranslation messageId) w))
        = ids (state w))
    /\ (forall o snapshot targetLanguage messageId,
        ids (state (run o (handleTranslate snapshot targetLanguage messageId) w))
        = ids (state w))
    /\ (forall o o1 n snapshot targetLanguage messageId w0,
        ids (state (finish o
                      (settle n o1
                         (advance
                            (handleTranslate snapshot targetLanguage messageId)
                            w0)).2
                      w))
        = ids (state w)).
Proof.
  intros w Hnd.
  pose (R := fun st st' : State => ids st' = ids st).
  assert (HR : Reflexive R) by (by intros ?).
  assert (HT : Transitive R).
  { intros ? ? ? H1 H2. unfold R in *. by rewrite H2. }
  split; [|split; [|split; [|split]]].
  - intros lt pc inputText now o Hnow.
    destruct (ChatTranslatorFacts.handleSubmit_keeps_messages
                lt pc inputText now o w) as [H|[msg H]].
    + unfold ids. by rewrite H.
    + destruct (truthy (trim inputText)) eqn:Hnb.
      * destruct (ChatTranslatorFacts.handleSubmit_outcome
                    lt pc inputText now o w Hnb)
          as [(u & first & rest & name & _ & _ & _ & Hm & _)|(err & cs & Hs & _)].
        -- unfold ids. rewrite Hm. simpl. by apply NoDup_cons.
        -- unfold ids. by rewrite Hs.
      * unfold handleSubmit. by rewrite Hnb.
  - intros o messageId. unfold ids. simpl.
    eapply sublist_NoDup; [exact Hnd|].
    apply (fmap_sublist id), sublist_filter.
  - intros o messageId. unfold ids. simpl. by apply patch_ids.
  - intros o snapshot targetLanguage messageId.
    exact (steps_run R o _ w
             (handleTranslate_keeps_ids snapshot targetLanguage messageId)).
  - intros o o1 n snapshot targetLanguage messageId w0.
    exact (translate_in_flight_steps R snapshot targetLanguage messageId
             n o1 o w0 w HR HT
             (handleTranslate_keeps_ids snapshot targetLanguage messageId)).
Qed.

(** X4 at work: a submit at a later time on the store of two messages. *)
Lemma X4_ids_stay_distinct_witness :
  NoDup (ids (state (run (Scenario.services "en" (Fulfilled ""))
                       (handleSubmit Scenario.displayName Scenario.percent
                          "Hi" 1700000000000)
                       Scenario.two_messages))).
Proof.
  refine (proj1 (X4_ids_stay_distinct Scenario.two_messages _)
            Scenario.displayName Scenario.percent "Hi" 1700000000000%Z
            (Scenario.services "en" (Fulfilled "")) _).
  - exact (bool_decide_unpack (NoDup (ids (state Scenario.two_messages))) I).
  - exact (bool_decide_unpack
             ((1700000000000 : Z) ∉ ids (state Scenario.two_messages)) I).
Defined.

(** *** The Clear button and the stored translations *)

Lemma tidy_translated targetLanguage t msg :
  tidy (translated targetLanguage t msg).
Proof.
  unfold tidy. simpl. symmetry. apply bool_decide_eq_true.
  apply insert_non_empty.
Qed.

Lemma tidy_cleared msg : tidy (cleared msg).
Proof.
  unfold tidy. simpl. symmetry. apply bool_decide_eq_false. by intros H.
Qed.

Lemma patch_tidy messageId f prev :
  (forall msg, tidy msg -> tidy (f msg)) ->
  Forall tidy prev -> Forall tidy (patch messageId f prev).
Proof.
  intros Hf H. unfold patch. apply Forall_fmap. 
  eapply Forall_impl; [exact H|]. intros msg Hm. simpl. case_decide; auto.
Qed.

Lemma handleTranslate_keeps_tidy snapshot targetLanguage messageId :
  steps (fun st st' => Forall tidy (messages st) -> Forall tidy (messages st'))
    (handleTranslate snapshot targetLanguage messageId).
Proof.
  apply handleTranslate_steps; intros; simpl; apply patch_tidy; try done.
  intros msg _. apply tidy_translated.
Qed.

Lemma handleSubmit_keeps_tidy lt pc inputText now :
  steps (fun st st' => Forall tidy (messages st) -> Forall tidy (messages st'))
    (handleSubmit lt pc inputText now).
Proof.
  apply handleSubmit_steps; [intros name c st Hst|by intros st].
  simpl. apply Forall_cons. split; [|done].
  unfold tidy. simpl. symmetry. apply bool_decide_eq_false. by intros E.
Qed.

(** X9. On a store where every message shows its Clear button exactly when
    it has a stored translation, every handler leaves such a store: a
    submit, a delete, a clear, a translate, and a translate in flight that
    ends on this store. *)
Theorem X9_clear_button_follows_the_translations :
  forall w,
    Forall tidy (messages (state w)) ->
    (forall lt pc inputText now o,
        Forall tidy (messages (state (run o (handleSubmit lt pc inputText now) w))))
    /\ (forall o messageId,
        Forall tidy (messages (state (run o (handleDeleteMessage messageId) w))))
    /\ (forall o messageId,
        Forall tidy
          (messages (state (run o (handleClearTranslation messageId) w))))
    /\ (forall o snapshot targetLanguage messageId,
        Forall tidy
          (messages
             (state (run o (handleTranslate snapshot targetLanguage messageId) w))))
    /\ (forall o o1 n snapshot targetLanguage messageId w0,
        Forall tidy
          (messages
             (state (finish o
                       (settle n o1
                          (advance
                             (handleTranslate snapshot targetLanguage messageId)
                             w0)).2
                       w))))
    /\ (forall msg, msg ∈ messages (state w) ->
          (clearShown msg = true <-> translations msg ≠ ∅)
          /\ (clearShown msg = false ->
              forall l, translationShown l msg = None)).
Proof.
  intros w Hw.
  pose (R := fun st st' : State =>
               Forall tidy (messages st) -> Forall tidy (messages st')).
  assert (HR : Reflexive R) by (intros st H; exact H).
  assert (HT : Transitive R) by (intros ? ? ? H1 H2 H; by apply H2, H1).
  split; [|split; [|split; [|split; [|split]]]].
  - intros lt pc inputText now o.
    by apply (steps_run R o _ w (handleSubmit_keeps_tidy lt pc inputText now)).
  - intros o messageId. simpl. apply Forall_forall.
    intros msg [_ Hin]%list_elem_of_filter.
    rewrite Forall_forall in Hw. by apply Hw.
  - intros o messageId. simpl. apply patch_tidy; [|done].
    intros msg _. apply tidy_cleared.
  - intros o snapshot targetLanguage messageId.
    by apply (steps_run R o _ w
                (handleTranslate_keeps_tidy snapshot targetLanguage messageId)).
  - intros o o1 n snapshot targetLanguage messageId w0.
    by apply (translate_in_flight_steps R snapshot targetLanguage messageId
                n o1 o w0 w HR HT
                (handleTranslate_keeps_tidy snapshot targetLanguage messageId)).
  - intros msg Hin. rewrite Forall_forall in Hw. specialize (Hw msg Hin).
    unfold tidy in Hw. unfold clearShown, translationShown. rewrite Hw. split.
    + apply bool_decide_eq_true.
    + by intros ->.
Qed.

(** X9 at work: the store of [hello] with its two translations. *)
Lemma X9_clear_button_follows_the_translations_witness :
  Forall tidy
    (messages (state (run (Scenario.services "en" (Fulfilled "Merhaba"))
                        (handleTranslate [Scenario.hello_es_fr] "tr" 1)
                        Scenario.hello_tr))).
Proof.
  refine (proj1 (proj2 (proj2 (proj2
            (X9_clear_button_follows_the_translations Scenario.hello_tr _))))
            (Scenario.services "en" (Fulfilled "Merhaba"))
            [Scenario.hello_es_fr] "tr" 1%Z).
  apply Forall_cons. split; [reflexivity|apply Forall_nil_2].
Defined.

(** *** The calls of a translate *)




(** *** The language a translation is stored under *)

Lemma translate_success_in_flight o w w' snapshot targetLanguage messageId
  message sourceLang translation :
  Detects o snapshot messageId message sourceLang ->
  sourceLang ≠ targetLanguage ->
  Translates o message sourceLang targetLanguage translation ->
  finish o (advance (handleTranslate snapshot targetLanguage messageId) w).2 w'
  = {| state := with_messages
                  (patch messageId (translated targetLanguage translation)
                     (messages (state w')))
                  (state w');
       trace := trace w' ++ [Called (Detect (trim (text message)));
                             Called (CreateTranslator sourceLang targetLanguage);
                             Called (Translate (trim (text message)))] |}.
Proof.
  intros (Hm & [u Hd] & first & rest & Hr & Hs) Hne [[u' Hc] Ht].
  subst sourceLang. unfold handleTranslate. simpl.
  rewrite Hd, Hm. simpl. rewrite Hr. simpl.
  rewrite decide_False by done. simpl. rewrite Hc. simpl. rewrite Ht. simpl.
  unfold update, record. simpl. by rewrite <- !app_assoc.
Qed.

(** X7. The translation is stored under the target language that was
    selected when Translate was clicked. When the selection changes while
    the translate is in flight, the translator is still created for the
    language of the click and the result is stored under it; the selection
    stays as changed, and under the new selection the page shows nothing
    for a message that had no translation into it. *)
Theorem X7_translation_is_stored_under_the_language_of_the_click :
  forall o w messageId message sourceLang translation selected,
    Detects o (messages (state w)) messageId message sourceLang ->
    sourceLang ≠ targetLanguage (state w) ->
    Translates o message sourceLang (targetLanguage (state w)) translation ->
    let clicked := targetLanguage (state w) in
    let issued := advance (onTranslate (state w) messageId) w in
    let changed := run o (setTargetLanguage selected) issued.1 in
    let final := finish o issued.2 changed in
    targetLanguage (state final) = selected
    /\ messages (state final)
       = patch messageId (translated clicked translation) (messages (state w))
    /\ calls final
       = calls w ++ translateCalls (trim (text message)) sourceLang clicked
    /\ (forall msg, msg ∈ messages (state final) -> id msg = messageId ->
          translations msg !! clicked = Some translation)
    /\ (forall old, selected ≠ clicked ->
          translations old !! selected = None ->
          translationShown selected (translated clicked translation old) = None).
Proof.
  intros o w messageId message sourceLang translation selected HD Hne HT
    clicked issued changed final.
  unfold final, issued, onTranslate.
  rewrite (translate_success_in_flight _ _ _ _ _ _ _ _ _ HD Hne HT).
  simpl. split; [done|]. split; [|split; [|split]].
  - rewrite ChatTranslatorFacts.patch_patch by done.
    apply ChatTranslatorFacts.patch_ext,
      ChatTranslatorFacts.translated_after_loading.
  - unfold calls. simpl. rewrite !omap_app. simpl. by rewrite <- app_assoc.
  - intros msg Hin Hid.
    apply ChatTranslatorFacts.patch_elem in Hin
      as (old & _ & [[_ ->]|[Hne' ->]]); [|done].
    simpl. apply lookup_insert_eq.
  - intros old Hsel Hnone. unfold translationShown. simpl.
    by rewrite lookup_insert_ne, Hnone.
Qed.

(** X7 at work: French is selected at the click on [hello], then Turkish. *)
Lemma X7_translation_is_stored_under_the_language_of_the_click_witness :
  messages
    (state
       (finish (Scenario.services "en" (Fulfilled "Bonjour le monde"))
          (advance (onTranslate (state Scenario.hello_fr) 1) Scenario.hello_fr).2
          (run (Scenario.services "en" (Fulfilled "Bonjour le monde"))
             (setTargetLanguage "tr")
             (advance (onTranslate (state Scenario.hello_fr) 1)
                Scenario.hello_fr).1)))
  = [translated "fr" "Bonjour le monde" Scenario.hello].
Proof.
  refine (proj1 (proj2
            (X7_translation_is_stored_under_the_language_of_the_click
               (Scenario.services "en" (Fulfilled "Bonjour le monde"))
               Scenario.hello_fr 1 Scenario.hello "en" "Bonjour le monde" "tr"
               _ _ _))).
  - split; [reflexivity|]. split; [by exists tt|].
    eexists _, _. split; reflexivity.
  - discriminate.
  - split; [by exists tt|reflexivity].
Defined.

(** *** Where a failure is shown *)

(** X8. A failed translate records its error on the messages of the id, but
    the page writes the error inside the box of the translation into the
    selected language only: it is shown exactly under the selections for
    which the message already showed a translation, and for a message without
    stored translations it is shown under none. The boxes themselves are as
    before. *)
Theorem X8_failure_is_shown_beside_a_translation_only :
  forall o w snapshot targetLanguage messageId err cs,
    TranslateFails o snapshot targetLanguage messageId err cs ->
    messages (state (run o (handleTranslate snapshot targetLanguage messageId) w))
    = patch messageId failed (messages (state w))
    /\ (forall old selected,
          translationShown selected (failed old) = translationShown selected old
          /\ errorShown selected (failed old)
             = (if translationShown selected old is Some _
                then Some translation_failed else None))
    /\ (forall old selected,
          translations old = ∅ -> errorShown selected (failed old) = None).
Proof.
  intros o w snapshot targetLanguage messageId err cs H.
  rewrite (ChatTranslatorFacts.translate_failure _ _ _ _ _ _ _ H). simpl.
  split; [done|]. split.
  - intros old selected. split; [done|].
    unfold errorShown.
    change (translationShown selected (failed old))
      with (translationShown selected old).
    by destruct (translationShown selected old).
  - intros old selected He. unfold errorShown, translationShown. simpl.
    rewrite He, lookup_empty. by destruct (showTranslation old).
Qed.

(** X8 at work: no translator from English into Turkish for [hello]. *)
Lemma X8_failure_is_shown_beside_a_translation_only_witness :
  messages (state (run (Scenario.unsupported_pair "en")
                     (handleTranslate [Scenario.hello] "tr" 1)
                     Scenario.hello_fr))
  = [failed Scenario.hello].
Proof.
  refine (proj1 (X8_failure_is_shown_beside_a_translation_only
                   (Scenario.unsupported_pair "en") Scenario.hello_fr
                   [Scenario.hello] "tr" 1
                   {| message := "UnsupportedLanguagePair" |}
                   [CreateDetector; Detect "Hello world";
                    CreateTranslator "en" "tr"] _)).
  apply (translator_rejected _ _ "tr" 1 Scenario.hello "en").
  - split; [reflexivity|]. split; [by exists tt|].
    eexists _, _. split; reflexivity.
  - discriminate.
  - reflexivity.
Defined.

(** *** Submit, then translate *)

Lemma handleSubmit_success lt pc inputText now o w u first rest name :
  truthy (trim inputText) = true ->
  o CreateDetector = Fulfilled u ->
  o (Detect (trim inputText)) = Fulfilled (first :: rest) ->
  lt (detectedLanguage first) "en" = Fulfilled name ->
  run o (handleSubmit lt pc inputText now) w
  = {| state :=
         {| ChatTranslator.inputText := "";
            messages := newMessage now inputText name (pc (score first))
                        :: messages (state w);
            targetLanguage := targetLanguage (state w);
            isSupported := isSupported (state w) |};
       trace := trace w ++ [Called CreateDetector;
                            Called (Detect (trim inputText))] |}.
Proof.
  intros Hnb Hd Hr Hl. unfold handleSubmit. rewrite Hnb. simpl.
  rewrite Hd. simpl. rewrite Hr. simpl. rewrite Hl. simpl.
  unfold update, record. simpl. by rewrite <- !app_assoc.
Qed.

(** X10. A text is submitted and detected, and the new message is then
    translated into the selected language, with services that answer both:
    the message is in front, it holds the translation under the selected
    language as its only entry, and the page shows that translation when it
    is not empty. The messages that were there are behind it, untouched when
    none of them has the time stamp as its id. *)
Theorem X10_submit_then_translate :
  forall lt pc inputText now o w u first rest name translation,
    truthy (trim inputText) = true ->
    o CreateDetector = Fulfilled u ->
    o (Detect (trim inputText)) = Fulfilled (first :: rest) ->
    lt (detectedLanguage first) "en" = Fulfilled name ->
    detectedLanguage first ≠ targetLanguage (state w) ->
    (exists u', o (CreateTranslator (detectedLanguage first)
                     (targetLanguage (state w))) = Fulfilled u') ->
    o (Translate (trim inputText)) = Fulfilled translation ->
    let selected := targetLanguage (state w) in
    let message := newMessage now inputText name (pc (score first)) in
    let submitted := run o (handleSubmit lt pc inputText now) w in
    let final := run o (onTranslate (state submitted) now) submitted in
    messages (state final)
    = translated selected translation message
      :: patch now (translated selected translation) (messages (state w))
    /\ (absent now (state w) ->
        messages (state final)
        = translated selected translation message :: messages (state w))
    /\ translations (translated selected translation message)
       = {[ selected := translation ]}
    /\ (truthy translation = true ->
        translationShown selected (translated selected translation message)
        = Some translation)
    /\ ChatTranslator.inputText (state final) = "".
Proof.
  intros lt pc inputText now o w u first rest name translation
    Hnb Hd Hr Hl Hne Hc Ht selected message submitted final.
  assert (Hsub : submitted
                 = {| state :=
                        {| ChatTranslator.inputText := "";
                           messages := message :: messages (state w);
                           targetLanguage := selected;
                           isSupported := isSupported (state w) |};
                      trace := trace w ++ [Called CreateDetector;
                                           Called (Detect (trim inputText))] |}).
  { by apply handleSubmit_success with (u := u) (rest := rest). }
  assert (HD : Detects o (messages (state submitted)) now message
                 (detectedLanguage first)).
  { rewrite Hsub. simpl. split.
    - unfold find_message. simpl. by rewrite decide_True.
    - split; [by exists u|]. by exists first, rest. }
  assert (HT : Translates o message (detectedLanguage first) selected
                 translation) by done.
  assert (Hfinal : messages (state final)
                   = translated selected translation message
                     :: patch now (translated selected translation)
                          (messages (state w))).
  { unfold final, onTranslate.
    assert (Htl : targetLanguage (state submitted) = selected)
      by (by rewrite Hsub).
    rewrite Htl.
    rewrite (ChatTranslatorFacts.translate_success _ _ _ _ _ _ _ _ HD Hne HT).
    rewrite Hsub. simpl. by rewrite decide_True. }
  split; [done|]. split; [|split; [|split]].
  - intros Ha. rewrite Hfinal. f_equal.
    by apply ChatTranslatorFacts.patch_absent.
  - simpl. apply insert_empty.
  - intros Htr. unfold translationShown. simpl.
    by rewrite lookup_insert_eq, Htr.
  - unfold final, onTranslate.
    destruct (ChatTranslatorFacts.translate_final_patch o submitted
                (messages (state submitted)) (targetLanguage (state submitted))
                now) as (f & -> & _).
    by rewrite Hsub.
Qed.

(** X10 at work: Hello is typed beside [bonjour], French is selected. *)
Lemma X10_submit_then_translate_witness :
  messages
    (state
       (run (Scenario.services "en" (Fulfilled "Bonjour"))
          (onTranslate
             (state (run (Scenario.services "en" (Fulfilled "Bonjour"))
                       (handleSubmit Scenario.displayName Scenario.percent
                          "Hello" 1700000000000)
                       Scenario.two_messages))
             1700000000000)
          (run (Scenario.services "en" (Fulfilled "Bonjour"))
             (handleSubmit Scenario.displayName Scenario.percent
                "Hello" 1700000000000)
             Scenario.two_messages)))
  = [translated "fr" "Bonjour"
       (newMessage 1700000000000 "Hello" "English" "95.0");
     Scenario.hello; Scenario.bonjour].
Proof.
  refine (proj1 (X10_submit_then_translate
                   Scenario.displayName Scenario.percent "Hello"
                   1700000000000%Z
                   (Scenario.services "en" (Fulfilled "Bonjour"))
                   Scenario.two_messages tt
                   {| detectedLanguage := "en"; score := 95 # 100 |} []
                   "English" "Bonjour" eq_refl eq_refl eq_refl eq_refl _ _
                   eq_refl)).
  - discriminate.
  - by exists tt.
Defined.

End ChatTranslatorMore.

(** ** More on Home *)

Module HomeMore.
Import Home HomePage.

Implicit Types (w : World Page.State Call) (o : Oracle Call reply).

(** *** Blank input *)

(** X2. A send of an input that is empty or all white space issues no call
    and sets the page error to the request for some text; the messages, the
    heap, the input field and the loading flag are as they were. *)
Theorem X2_blank_send_asks_for_text :
  forall inputText now languageDetection o w,
    forallb isWhiteSpace (list_ascii_of_string inputText) = true ->
    let final := run o (handleSend inputText now languageDetection) w in
    trace final = trace w
    /\ Page.error (state final) = "Please enter some text"
    /\ Page.heap (state final) = Page.heap (state w)
    /\ Page.messages (state final) = Page.messages (state w)
    /\ Page.inputText (state final) = Page.inputText (state w)
    /\ Page.loading (state final) = Page.loading (state w)
    /\ inFlight (advance (handleSend inputText now languageDetection) w).2
       = false.
Proof.
  intros inputText now languageDetection o w Hb final.
  apply JsFacts.blank_iff in Hb. unfold final, handleSend. by rewrite Hb.
Qed.

(** X2 at work: a tab and a space are sent. *)
Lemma X2_blank_send_asks_for_text_witness :
  Page.error
    (state (run (HomeScenario.services ["en"] "" "")
              (handleSend (String (ascii_of_nat 9) " ") "1700000000003" true)
              HomeScenario.hello_page))
  = "Please enter some text".
Proof.
  exact (proj1 (proj2 (X2_blank_send_asks_for_text
                         (String (ascii_of_nat 9) " ") "1700000000003" true
                         (HomeScenario.services ["en"] "" "")
                         HomeScenario.hello_page eq_refl))).
Defined.

(** *** How a summarize and a translate end *)

Lemma summarize_in_flight snapshot messageId w w' o i r message :
  findIndex (Page.heap (state w)) messageId snapshot = Some (i, r) ->
  Page.heap (state w) !! r = Some message ->
  let parked := (advance (handleSummarize snapshot messageId) w).2 in
  (forall s,
      o (Summarize (text message)) = Fulfilled s ->
      state (finish o parked w')
      = settled (alter (set_summary s) r (Page.heap (state w'))) snapshot
          (Page.error (state w')) (state w'))
  /\ (forall err,
      o (Summarize (text message)) = Rejected err ->
      state (finish o parked w')
      = settled (Page.heap (state w')) (Page.messages (state w'))
          (or_else (Js.message err) "Failed to generate summary") (state w')).
Proof.
  intros Hi Hm. unfold handleSummarize. simpl. rewrite Hi. simpl.
  rewrite Hm. simpl. split.
  - intros s ->. done.
  - intros err ->. done.
Qed.

Lemma translate_in_flight snapshot targetLang messageId w w' o i r message :
  findIndex (Page.heap (state w)) messageId snapshot = Some (i, r) ->
  Page.heap (state w) !! r = Some message ->
  let parked := (advance (handleTranslate snapshot targetLang messageId) w).2 in
  (forall t,
      o (Translate (text message) targetLang (detectedLang message))
      = Fulfilled t ->
      state (finish o parked w')
      = settled (alter (set_translation t targetLang) r (Page.heap (state w')))
          snapshot (Page.error (state w')) (state w'))
  /\ (forall err,
      o (Translate (text message) targetLang (detectedLang message))
      = Rejected err ->
      state (finish o parked w')
      = settled (Page.heap (state w')) (Page.messages (state w'))
          (or_else (Js.message err)
             "Translation failed. Language pair may not be supported.")
          (state w')).
Proof.
  intros Hi Hm. unfold handleTranslate. simpl. rewrite Hi. simpl.
  rewrite Hm. simpl. split.
  - intros t ->. done.
  - intros err ->. done.
Qed.





(** *** What every write of the handlers keeps *)

(** The writes of the three handlers, one by one. *)
Lemma send_writes (R : Page.State -> Page.State -> Prop)
  inputText now languageDetection :
  (forall b, steps R (setLoading b)) ->
  (forall e, steps R (setError e)) ->
  (forall s, steps R (setInputText s)) ->
  (forall m, steps R (appendMessage m)) ->
  steps R (handleSend inputText now languageDetection).
Proof.
  intros Hl He Hi Ha. unfold handleSend.
  destruct (negb (truthy (trim inputText))); [apply He|].
  apply steps_tryFinally; [|apply Hl]. apply steps_tryCatch.
  - apply steps_bind; [apply Hl|]. intros _.
    apply steps_bind; [apply He|]. intros _.
    destruct (negb languageDetection).
    + apply steps_bind; [apply He|]. intros _. apply Hl.
    + apply steps_bind; [apply steps_await|]. intros detectedLang.
      apply steps_bind; [apply Ha|]. intros _. apply Hi.
  - intros err. apply steps_bind; [apply He|]. by intros _.
Qed.

Lemma summarize_writes (R : Page.State -> Page.State -> Prop)
  snapshot messageId :
  (forall b, steps R (setLoading b)) ->
  (forall e, steps R (setError e)) ->
  (forall r s, steps R (assign r (set_summary s))) ->
  steps R (setMessages snapshot) ->
  steps R (handleSummarize snapshot messageId).
Proof.
  intros Hl He Ha Hm. unfold handleSummarize.
  apply steps_tryFinally; [|apply Hl]. apply steps_tryCatch.
  - apply steps_bind; [apply Hl|]. intros _.
    apply steps_bind; [apply He|]. intros _.
    apply steps_bind; [by intros st|]. intros st.
    apply steps_bind; [apply steps_defined|]. intros message.
    apply steps_bind; [apply steps_await|]. intros summary.
    apply steps_bind; [apply steps_defined|]. intros r.
    apply steps_bind; [apply Ha|]. by intros _.
  - intros err. apply He.
Qed.

Lemma translate_writes (R : Page.State -> Page.State -> Prop)
  snapshot targetLang messageId :
  (forall b, steps R (setLoading b)) ->
  (forall e, steps R (setError e)) ->
  (forall r t, steps R (assign r (set_translation t targetLang))) ->
  steps R (setMessages snapshot) ->
  steps R (handleTranslate snapshot targetLang messageId).
Proof.
  intros Hl He Ha Hm. unfold handleTranslate.
  apply steps_tryFinally; [|apply Hl]. apply steps_tryCatch.
  - apply steps_bind; [apply Hl|]. intros _.
    apply steps_bind; [apply He|]. intros _.
    apply steps_bind; [by intros st|]. intros st.
    apply steps_bind; [apply steps_defined|]. intros message.
    apply steps_bind; [apply steps_await|]. intros translation.
    apply steps_bind; [apply steps_defined|]. intros r.
    apply steps_bind; [apply Ha|]. by intros _.
  - intros err. apply He.
Qed.

#[local] Instance extends_reflexive : Reflexive extends.
Proof. intros st. split; [done|]. intros r m H. by exists m. Qed.

#[local] Instance extends_transitive : Transitive extends.
Proof.
  intros s1 s2 s3 [L1 H1] [L2 H2]. split; [lia|].
  intros r m Hm. destruct (H1 r m Hm) as (m' & Hm' & ? & ? & ?).
  destruct (H2 r m' Hm') as (m'' & Hm'' & ? & ? & ?).
  exists m''. repeat split; congruence.
Qed.

Lemma extends_append st m : 
  forall st', Page.heap st' = Page.heap st ++ [m] -> extends st st'.
Proof.
  intros st' H. split; [rewrite H, length_app; lia|].
  intros r x Hx. exists x. rewrite H. split; [|done].
  by apply lookup_app_l_Some.
Qed.

Lemma extends_alter st r f :
  (forall m, id (f m) = id m /\ text (f m) = text m
             /\ detectedLang (f m) = detectedLang m) ->
  forall st', Page.heap st' = alter f r (Page.heap st) -> extends st st'.
Proof.
  intros Hf st' H. split; [by rewrite H, length_alter|].
  intros r' x Hx. rewrite H. destruct (decide (r = r')) as [<-|Hne].
  - exists (f x). rewrite list_lookup_alter_eq, Hx. split; [done|apply Hf].
  - exists x. by rewrite list_lookup_alter_ne.
Qed.

Lemma extends_same st st' : Page.heap st' = Page.heap st -> extends st st'.
Proof. intros H. split; [by rewrite H|]. intros r m Hm. exists m. by rewrite H. Qed.

Lemma handlers_extend :
  (forall inputText now languageDetection,
      steps extends (handleSend inputText now languageDetection))
  /\ (forall snapshot messageId,
      steps extends (handleSummarize snapshot messageId))
  /\ (forall snapshot targetLang messageId,
      steps extends (handleTranslate snapshot targetLang messageId)).
Proof.
  assert (Hsame : forall f : Page.State -> Page.State,
             (forall st, Page.heap (f st) = Page.heap st) ->
             steps extends (setState (Call := Call) (reply := reply) f)).
  { intros f H. apply steps_setState. intros st. by apply extends_same. }
  split; [|split].
  - intros. apply send_writes; intros; try by apply Hsame.
    apply steps_setState. intros st. by eapply extends_append.
  - intros. apply summarize_writes; intros; try by apply Hsame.
    apply steps_setState. intros st.
    eapply extends_alter; [|reflexivity]. by intros m.
  - intros. apply translate_writes; intros; try by apply Hsame.
    apply steps_setState. intros st.
    eapply extends_alter; [|reflexivity]. by intros m.
Qed.

(** X13. No handler of Home removes an object from the heap or changes the
    [id], the [text] or the [detectedLang] of one: from the start of a send,
    a summarize or a translate to its end, and from any state on which one
    in flight ends to the state it leaves, the heap only grows and every
    object keeps these three fields. *)
Theorem X13_messages_keep_their_id_and_text :
  forall o w w',
    (forall inputText now languageDetection,
        extends (state w)
          (state (run o (handleSend inputText now languageDetection) w))
        /\ extends (state w')
             (state (finish o
                       (advance (handleSend inputText now languageDetection) w).2
                       w')))
    /\ (forall snapshot messageId,
        extends (state w) (state (run o (handleSummarize snapshot messageId) w))
        /\ extends (state w')
             (state (finish o
                       (advance (handleSummarize snapshot messageId) w).2 w')))
    /\ (forall snapshot targetLang messageId,
        extends (state w)
          (state (run o (handleTranslate snapshot targetLang messageId) w))
        /\ extends (state w')
             (state (finish o
                       (advance (handleTranslate snapshot targetLang messageId)
                          w).2
                       w'))).
Proof.
  intros o w w'. destruct handlers_extend as (Hs & Hm & Ht).
  split; [|split]; intros; (split;
    [apply steps_run; [apply _|apply _|done]
    |apply steps_finish; [apply _|apply _|];
     apply steps_advance; [apply _|apply _|done]]).
Qed.

(** *** The references of the page *)

Lemma handlers_keep_references snapshot :
  let R := fun st st' : Page.State => resolves snapshot st -> resolves snapshot st' in
  (forall inputText now languageDetection,
      steps R (handleSend inputText now languageDetection))
  /\ (forall messageId, steps R (handleSummarize snapshot messageId))
  /\ (forall targetLang messageId,
      steps R (handleTranslate snapshot targetLang messageId)).
Proof.
  intros R.
  assert (Hsame : forall f : Page.State -> Page.State,
             (forall st, Page.heap (f st) = Page.heap st) ->
             (forall st, Page.messages (f st) = Page.messages st) ->
             steps R (setState (Call := Call) (reply := reply) f)).
  { intros f H1 H2. apply steps_setState. intros st [Hw Hs].
    unfold resolves, wellFormed. by rewrite H1, H2. }
  assert (Halter : forall r g,
             steps R (assign r g)).
  { intros r g. apply steps_setState. intros st [Hw Hs].
    unfold resolves, wellFormed. simpl. by rewrite length_alter. }
  assert (Hset : steps R (setMessages snapshot)).
  { apply steps_setState. intros st [Hw Hs]. by split. }
  split; [|split].
  - intros. apply send_writes; intros; try by apply Hsame.
    apply steps_setState. intros st [Hw Hs].
    unfold resolves, wellFormed in *. simpl. rewrite length_app. simpl.
    split.
    + apply Forall_app. split.
      * eapply Forall_impl; [exact Hw|]. simpl. lia.
      * apply Forall_singleton. lia.
    + eapply Forall_impl; [exact Hs|]. simpl. lia.
  - intros. apply summarize_writes; intros; try by apply Hsame.
    + apply Halter.
    + apply Hset.
  - intros. apply translate_writes; intros; try by apply Hsame.
    + apply Halter.
    + apply Hset.
Qed.

(** X14. The references never dangle. On a page whose references resolve in
    the heap, a send leaves such a page; so does a summarize or a translate
    whose closed-over array resolves in the heap, run to its end or in flight
    and ending on this page. *)
Theorem X14_references_resolve :
  forall o w w' snapshot,
    resolves snapshot (state w') ->
    (forall inputText now languageDetection,
        wellFormed
          (state (run o (handleSend inputText now languageDetection) w')))
    /\ (forall messageId,
        wellFormed (state (run o (handleSummarize snapshot messageId) w'))
        /\ wellFormed
             (state (finish o
                       (advance (handleSummarize snapshot messageId) w).2 w')))
    /\ (forall targetLang messageId,
        wellFormed
          (state (run o (handleTranslate snapshot targetLang messageId) w'))
        /\ wellFormed
             (state (finish o
                       (advance (handleTranslate snapshot targetLang messageId)
                          w).2
                       w'))).
Proof.
  intros o w w' snapshot Hres.
  pose (R := fun st st' : Page.State =>
               resolves snapshot st -> resolves snapshot st').
  assert (HR : Reflexive R) by (intros st H; exact H).
  assert (HT : Transitive R) by (intros ? ? ? H1 H2 H; by apply H2, H1).
  destruct (handlers_keep_references snapshot) as (Hs & Hm & Ht).
  fold R in Hs, Hm, Ht.
  split; [|split].
  - intros inputText now languageDetection.
    by apply (steps_run R o _ w' (Hs inputText now languageDetection)).
  - intros messageId. split.
    + by apply (steps_run R o _ w' (Hm messageId)).
    + refine (proj1 (steps_finish R o _ w' _ Hres)).
      by apply (steps_advance R).
  - intros targetLang messageId. split.
    + by apply (steps_run R o _ w' (Ht targetLang messageId)).
    + refine (proj1 (steps_finish R o _ w' _ Hres)).
      by apply (steps_advance R).
Qed.

(** X14 at work: a translate of [hello] on its page. *)
Lemma X14_references_resolve_witness :
  wellFormed (state HomeScenario.hello_es).
Proof.
  refine (proj1 (proj2 (proj2 (X14_references_resolve
                   (HomeScenario.services [] "" "Hola mundo")
                   HomeScenario.hello_page HomeScenario.hello_page [0] _))
            "es" "1700000000001")).
  split; apply Forall_singleton; simpl; lia.
Defined.

(** *** A translate that ends after the page has changed *)

(** X15. A translate that is fulfilled puts back the array of messages its
    handler closed over, whatever the page holds when it ends, and writes
    into the object of its message in the heap of that moment. So a message
    that a send appended while the translate was in flight is no longer
    among the messages of the page afterwards, although its object is still
    in the heap. *)
Theorem X15_translate_puts_back_the_array_of_its_click :
  forall o w messageId i r message t,
    findIndex (Page.heap (state w)) messageId (Page.messages (state w))
    = Some (i, r) ->
    Page.heap (state w) !! r = Some message ->
    o (Translate (text message) (Page.targetLang (state w))
         (detectedLang message)) = Fulfilled t ->
    let issued := advance (onTranslate (state w) messageId) w in
    (forall w',
        Page.messages (state (finish o issued.2 w')) = Page.messages (state w)
        /\ Page.heap (state (finish o issued.2 w'))
           = alter (set_translation t (Page.targetLang (state w))) r
               (Page.heap (state w')))
    /\ (forall inputText now detected,
        wellFormed (state w) ->
        truthy (trim inputText) = true ->
        o (DetectLanguage inputText) = Fulfilled detected ->
        let sent := run o (handleSend inputText now true) issued.1 in
        let late := finish o issued.2 sent in
        Page.messages (state sent)
        = Page.messages (state w) ++ [length (Page.heap (state w))]
        /\ Page.messages (state late) = Page.messages (state w)
        /\ (length (Page.heap (state w)) ∉ Page.messages (state late))
        /\ exists m,
             Page.heap (state late) !! (length (Page.heap (state w))) = Some m
             /\ id m = now /\ text m = inputText).
Proof.
  intros o w messageId i r message t Hi Hm Ho issued.
  assert (Hlate : forall w',
             state (finish o issued.2 w')
             = settled (alter (set_translation t (Page.targetLang (state w))) r
                          (Page.heap (state w')))
                 (Page.messages (state w)) (Page.error (state w')) (state w')).
  { intros w'.
    by apply (proj1 (translate_in_flight _ _ _ w w' o i r message Hi Hm)). }
  split.
  - intros w'. by rewrite Hlate.
  - intros inputText now detected Hwf Hnb Hd sent late.
    assert (Hr : r < length (Page.heap (state w))) by (by eapply lookup_lt_Some).
    destruct (HomeFacts.send_outcome inputText now true o issued.1 Hnb)
      as [_ [(ds & _ & Hds & Hheap & Hmsgs & _)|(_ & _ & _ & _ & [[H _]|(err & _ & H & _)])]];
      [|discriminate H|rewrite Hd in H; discriminate H].
    fold sent in Hheap, Hmsgs.
    assert (Hh0 : Page.heap (state issued.1) = Page.heap (state w)).
    { unfold issued, onTranslate, handleTranslate. simpl. rewrite Hi. simpl.
      by rewrite Hm. }
    assert (Hm0 : Page.messages (state issued.1) = Page.messages (state w)).
    { unfold issued, onTranslate, handleTranslate. simpl. rewrite Hi. simpl.
      by rewrite Hm. }
    rewrite Hh0 in Hheap, Hmsgs. rewrite Hm0 in Hmsgs.
    split; [done|]. unfold late. rewrite Hlate. simpl. split; [done|]. split.
    + intros Hin. unfold wellFormed in Hwf. rewrite Forall_forall in Hwf.
      specialize (Hwf _ Hin). lia.
    + rewrite Hheap. eexists. split.
      * rewrite list_lookup_alter_ne by lia.
        by rewrite lookup_app_r, Nat.sub_diag by lia.
      * done.
Qed.

(** X15 at work: Hi is sent while the translate of [hello] is in flight. *)
Lemma X15_translate_puts_back_the_array_of_its_click_witness :
  Page.messages
    (state
       (finish (HomeScenario.services ["en"] "" "Hola mundo")
          (advance (onTranslate (state HomeScenario.hello_page) "1700000000001")
             HomeScenario.hello_page).2
          (run (HomeScenario.services ["en"] "" "Hola mundo")
             (handleSend "Hi" "1700000000005" true)
             (advance (onTranslate (state HomeScenario.hello_page)
                         "1700000000001")
                HomeScenario.hello_page).1)))
  = [0].
Proof.
  refine (proj1 (proj2 (proj2
            (X15_translate_puts_back_the_array_of_its_click
               (HomeScenario.services ["en"] "" "Hola mundo")
               HomeScenario.hello_page "1700000000001" 0 0 HomeScenario.hello
               "Hola mundo" eq_refl eq_refl eq_refl)
            "Hi" "1700000000005" [{| language := "en" |}] _ eq_refl eq_refl))).
  apply Forall_singleton. simpl. lia.
Defined.

(** *** A summarize and a translate of one message, in flight together *)

(** X16. The handlers write into the object that every array shares. When a
    translate and a summarize of one message are in flight together and both
    are fulfilled, the message ends with the summary and the translation, in
    whichever order the two end, and the page holds the closed-over array. *)
Theorem X16_summary_and_translation_are_both_kept :
  forall o w snapshot targetLang messageId i r message s t,
    findIndex (Page.heap (state w)) messageId snapshot = Some (i, r) ->
    Page.heap (state w) !! r = Some message ->
    o (Summarize (text message)) = Fulfilled s ->
    o (Translate (text message) targetLang (detectedLang message))
    = Fulfilled t ->
    let translating := advance (handleTranslate snapshot targetLang messageId) w in
    let summarizing := advance (handleSummarize snapshot messageId) translating.1 in
    let both := set_summary s (set_translation t targetLang message) in
    let translate_first :=
      finish o summarizing.2 (finish o translating.2 summarizing.1) in
    let summarize_first :=
      finish o translating.2 (finish o summarizing.2 summarizing.1) in
    inFlight translating.2 = true
    /\ inFlight summarizing.2 = true
    /\ Page.heap (state translate_first) !! r = Some both
    /\ Page.heap (state summarize_first) !! r = Some both
    /\ state translate_first = state summarize_first
    /\ Page.messages (state translate_first) = snapshot.
Proof.
  intros o w snapshot targetLang messageId i r message s t Hi Hm Hs Ht
    translating summarizing both translate_first summarize_first.
  assert (Hh1 : Page.heap (state translating.1) = Page.heap (state w)).
  { unfold translating, handleTranslate. simpl. rewrite Hi. simpl.
    by rewrite Hm. }
  assert (Hi1 : findIndex (Page.heap (state translating.1)) messageId snapshot
                = Some (i, r)) by (by rewrite Hh1).
  assert (Hm1 : Page.heap (state translating.1) !! r = Some message)
    by (by rewrite Hh1).
  assert (Hh2 : Page.heap (state summarizing.1) = Page.heap (state w)).
  { unfold summarizing, handleSummarize. simpl. rewrite Hi1. simpl.
    by rewrite Hm1. }
  assert (HT : forall w',
             state (finish o translating.2 w')
             = settled (alter (set_translation t targetLang) r
                          (Page.heap (state w')))
                 snapshot (Page.error (state w')) (state w')).
  { intros w'.
    by apply (proj1 (translate_in_flight _ _ _ w w' o i r message Hi Hm)). }
  assert (HS : forall w',
             state (finish o summarizing.2 w')
             = settled (alter (set_summary s) r (Page.heap (state w')))
                 snapshot (Page.error (state w')) (state w')).
  { intros w'.
    by apply (proj1 (summarize_in_flight _ _ translating.1 w' o i r message
                       Hi1 Hm1)). }
  split.
  { unfold translating, handleTranslate. simpl. rewrite Hi. simpl.
    by rewrite Hm. }
  split.
  { unfold summarizing, handleSummarize. simpl. rewrite Hi1. simpl.
    by rewrite Hm1. }
  assert (E1 : state translate_first
               = settled (alter (set_summary s) r
                            (alter (set_translation t targetLang) r
                               (Page.heap (state w))))
                   snapshot (Page.error (state summarizing.1))
                   (state summarizing.1)).
  { unfold translate_first. rewrite HS, HT. simpl. by rewrite Hh2. }
  assert (E2 : state summarize_first
               = settled (alter (set_translation t targetLang) r
                            (alter (set_summary s) r (Page.heap (state w))))
                   snapshot (Page.error (state summarizing.1))
                   (state summarizing.1)).
  { unfold summarize_first. rewrite HT, HS. simpl. by rewrite Hh2. }
  assert (Hcomm : alter (set_translation t targetLang) r
                    (alter (set_summary s) r (Page.heap (state w)))
                  = alter (set_summary s) r
                      (alter (set_translation t targetLang) r
                         (Page.heap (state w)))).
  { apply list_eq. intros j. destruct (decide (r = j)) as [<-|Hne].
    - rewrite !list_lookup_alter_eq. by destruct (Page.heap (state w) !! r).
    - by rewrite !list_lookup_alter_ne. }
  split; [|split; [|split]].
  - rewrite E1. simpl. rewrite !list_lookup_alter_eq, Hm. done.
  - rewrite E2. simpl. rewrite !list_lookup_alter_eq, Hm. done.
  - rewrite E1, E2. by rewrite Hcomm.
  - by rewrite E1.
Qed.

(** X16 at work: [hello] is translated and summarized together. *)
Lemma X16_summary_and_translation_are_both_kept_witness :
  Page.heap
    (state
       (finish (HomeScenario.services [] "Greeting" "Hola mundo")
          (advance (handleSummarize [0] "1700000000001")
             (advance (handleTranslate [0] "es" "1700000000001")
                HomeScenario.hello_page).1).2
          (finish (HomeScenario.services [] "Greeting" "Hola mundo")
             (advance (handleTranslate [0] "es" "1700000000001")
                HomeScenario.hello_page).2
             (advance (handleSummarize [0] "1700000000001")
                (advance (handleTranslate [0] "es" "1700000000001")
                   HomeScenario.hello_page).1).1)))
    !! 0
  = Some (set_summary "Greeting"
            (set_translation "Hola mundo" "es" HomeScenario.hello)).
Proof.
  exact (proj1 (proj2 (proj2
           (X16_summary_and_translation_are_both_kept
              (HomeScenario.services [] "Greeting" "Hola mundo")
              HomeScenario.hello_page [0] "es" "1700000000001" 0 0
              HomeScenario.hello "Greeting" "Hola mundo"
              eq_refl eq_refl eq_refl eq_refl)))).
Defined.

(** *** The loading flag *)



End HomeMore.

(** ** ChatTranslator: what a clear hides, and two translates together *)

Module ChatTranslatorTogether.
Import ChatTranslator ChatTranslatorPage.

Implicit Types (w : World State Call) (o : Oracle Call reply).

(** X18. After a clear of a message the page shows, for it, no Clear button
    and, under every selection, no translation and no error, although a
    recorded error stays in the message; a second clear changes nothing. *)
Theorem X18_clear_hides_translation_and_error :
  forall o w messageId,
    let final := run o (handleClearTranslation messageId) w in
    (forall msg, msg ∈ messages (state final) -> id msg = messageId ->
        clearShown msg = false
        /\ forall selected,
             translationShown selected msg = None
             /\ errorShown selected msg = None)
    /\ map error (messages (state final)) = map error (messages (state w))
    /\ state (run o (handleClearTranslation messageId) final) = state final.
Proof.
  intros o w messageId final. split; [|split].
  - intros msg Hin Hid. simpl in Hin.
    apply ChatTranslatorFacts.patch_elem in Hin
      as (old & _ & [[_ ->]|[Hne ->]]); done.
  - simpl. by apply ChatTranslatorFacts.patch_map_same.
  - simpl. unfold with_messages. simpl. f_equal.
    rewrite ChatTranslatorFacts.patch_patch by done.
    by apply ChatTranslatorFacts.patch_ext.
Qed.

(** X18 at work: [hello] with its two translations is cleared. *)
Lemma X18_clear_hides_translation_and_error_witness :
  clearShown (cleared Scenario.hello_es_fr) = false.
Proof.
  exact (proj1 (proj1 (X18_clear_hides_translation_and_error
                         (Scenario.services "en" (Fulfilled ""))
                         Scenario.hello_tr 1)
                  (cleared Scenario.hello_es_fr)
                  (list_elem_of_here _ _) eq_refl)).
Defined.

(** X19. Two translates of one message into two different languages are in
    flight together, and both are fulfilled. Whichever ends first, the store
    is the same at the end: the messages of the id hold both translations,
    each under its language, and their [loading] is false. *)
Theorem X19_two_languages_in_flight :
  forall o1 o2 w snapshot messageId message sourceLang lang1 lang2 t1 t2,
    Detects o1 snapshot messageId message sourceLang ->
    Detects o2 snapshot messageId message sourceLang ->
    sourceLang ≠ lang1 -> sourceLang ≠ lang2 -> lang1 ≠ lang2 ->
    Translates o1 message sourceLang lang1 t1 ->
    Translates o2 message sourceLang lang2 t2 ->
    let first := advance (handleTranslate snapshot lang1 messageId) w in
    let second := advance (handleTranslate snapshot lang2 messageId) first.1 in
    let first_ends_first :=
      finish o2 second.2 (finish o1 first.2 second.1) in
    let second_ends_first :=
      finish o1 first.2 (finish o2 second.2 second.1) in
    state first_ends_first = state second_ends_first
    /\ length (messages (state first_ends_first)) = length (messages (state w))
    /\ (forall msg, msg ∈ messages (state first_ends_first) ->
          id msg = messageId ->
          translations msg !! lang1 = Some t1
          /\ translations msg !! lang2 = Some t2
          /\ loading msg = Some false).
Proof.
  intros o1 o2 w snapshot messageId message sourceLang lang1 lang2 t1 t2
    HD1 HD2 Hne1 Hne2 Hne HT1 HT2 first second first_ends_first
    second_ends_first.
  assert (E1 : forall w',
             state (finish o1 first.2 w')
             = with_messages
                 (patch messageId (translated lang1 t1) (messages (state w')))
                 (state w')).
  { intros w'. unfold first.
    by rewrite (ChatTranslatorMore.translate_success_in_flight
                  _ _ _ _ _ _ _ _ _ HD1 Hne1 HT1). }
  assert (E2 : forall w',
             state (finish o2 second.2 w')
             = with_messages
                 (patch messageId (translated lang2 t2) (messages (state w')))
                 (state w')).
  { intros w'. unfold second.
    by rewrite (ChatTranslatorMore.translate_success_in_flight
                  _ _ _ _ _ _ _ _ _ HD2 Hne2 HT2). }
  assert (Hcomm : forall msg,
             (translated lang2 t2 ∘ translated lang1 t1) msg
             = (translated lang1 t1 ∘ translated lang2 t2) msg).
  { intros msg. unfold translated. simpl. f_equal.
    by apply insert_insert_ne. }
  assert (Ha : state first_ends_first
               = with_messages
                   (patch messageId (translated lang2 t2 ∘ translated lang1 t1)
                      (messages (state second.1)))
                   (state second.1)).
  { unfold first_ends_first. rewrite E2, E1. unfold with_messages. simpl.
    by rewrite ChatTranslatorFacts.patch_patch. }
  assert (Hb : state second_ends_first
               = with_messages
                   (patch messageId (translated lang1 t1 ∘ translated lang2 t2)
                      (messages (state second.1)))
                   (state second.1)).
  { unfold second_ends_first. rewrite E1, E2. unfold with_messages. simpl.
    by rewrite ChatTranslatorFacts.patch_patch. }
  split; [|split].
  - rewrite Ha, Hb. f_equal. by apply ChatTranslatorFacts.patch_ext.
  - rewrite Ha. simpl. by rewrite !ChatTranslatorFacts.patch_length.
  - intros msg Hin Hid. rewrite Ha in Hin. simpl in Hin.
    apply ChatTranslatorFacts.patch_elem in Hin
      as (old & _ & [[_ ->]|[Hne' ->]]); [|done].
    simpl. split; [|split; [|done]].
    + by rewrite lookup_insert_ne, lookup_insert_eq.
    + by rewrite lookup_insert_eq.
Qed.

(** X19 at work: [hello] is translated into French and into Spanish. *)
Lemma X19_two_languages_in_flight_witness :
  length
    (messages
       (state
          (finish (Scenario.services "en" (Fulfilled "Hola mundo"))
             (advance (handleTranslate [Scenario.hello] "es" 1)
                (advance (handleTranslate [Scenario.hello] "fr" 1)
                   Scenario.hello_fr).1).2
             (finish (Scenario.services "en" (Fulfilled "Bonjour le monde"))
                (advance (handleTranslate [Scenario.hello] "fr" 1)
                   Scenario.hello_fr).2
                (advance (handleTranslate [Scenario.hello] "es" 1)
                   (advance (handleTranslate [Scenario.hello] "fr" 1)
                      Scenario.hello_fr).1).1))))
  = 1.
Proof.
  refine (proj1 (proj2
            (X19_two_languages_in_flight
               (Scenario.services "en" (Fulfilled "Bonjour le monde"))
               (Scenario.services "en" (Fulfilled "Hola mundo"))
               Scenario.hello_fr [Scenario.hello] 1 Scenario.hello "en"
               "fr" "es" "Bonjour le monde" "Hola mundo" _ _ _ _ _ _ _))).
  - split; [reflexivity|]. split; [by exists tt|].
    eexists _, _. split; reflexivity.
  - split; [reflexivity|]. split; [by exists tt|].
    eexists _, _. split; reflexivity.
  - discriminate.
  - discriminate.
  - discriminate.
  - split; [by exists tt|reflexivity].
  - split; [by exists tt|reflexivity].
Defined.

End ChatTranslatorTogether.
